(** * CLIProxyAPI: sticky credential selector, Kiro callback validation and
      Codex quota snapshots

    A shallow embedding of
    - the sticky selector of package [auth] (priority parsing, garbage
      collection of bindings, session-key extraction, rendezvous hashing and
      [StickySelector.Pick]),
    - [internal/auth/kiro/callback_input.go], and
    - [internal/usage/codex_quota.go],
    followed by the properties the specification states about them.

    Conventions.  Go strings are byte strings ([string], one [ascii] per
    byte) and are compared byte-wise.  [strings.TrimSpace] and
    [strings.ToLower] are embedded on ASCII, where they agree with Go's
    Unicode-aware functions on every string made of ASCII bytes.  A
    [time.Time] is the number of nanoseconds since Go's zero time, so
    [IsZero] is a comparison with 0.  Go's [int] is the 64-bit one.  A [*T]
    that may be nil is an [option T]; a Go map is a [gmap], a nil map being
    read like the empty one, as Go does. *)

From Stdlib Require Import ZArith List String Ascii Bool Lia.
From Stdlib Require Import Floats.SpecFloat.
From stdpp Require Import gmap strings list fin_maps.

Local Open Scope string_scope.
Local Open Scope Z_scope.

(** ** Go's [strings] package, on byte strings *)

Module Strs.

Definition code (c : ascii) : Z := Z.of_N (N_of_ascii c).

Definition chr (z : Z) : ascii := ascii_of_N (Z.to_N z).

Definition between (lo hi : Z) (c : ascii) : bool :=
  (lo <=? code c) && (code c <=? hi).

(** The ASCII white space of [strings.TrimSpace]: tab, line feed, vertical
    tab, form feed, carriage return and space. *)
Definition isSpace (c : ascii) : bool :=
  between 9 13 c || (code c =? 32).

Fixpoint TrimLeft (s : string) : string :=
  match s with
  | EmptyString => EmptyString
  | String c rest => if isSpace c then TrimLeft rest else s
  end.

Fixpoint TrimRight (s : string) : string :=
  match s with
  | EmptyString => EmptyString
  | String c rest =>
      match TrimRight rest with
      | EmptyString => if isSpace c then EmptyString else String c EmptyString
      | kept => String c kept
      end
  end.

Definition TrimSpace (s : string) : string := TrimRight (TrimLeft s).

Definition lowerByte (c : ascii) : ascii :=
  if between 65 90 c then chr (code c + 32) else c.

Definition upperByte (c : ascii) : ascii :=
  if between 97 122 c then chr (code c - 32) else c.

Fixpoint ToLower (s : string) : string :=
  match s with
  | EmptyString => EmptyString
  | String c rest => String (lowerByte c) (ToLower rest)
  end.

Fixpoint HasPrefix (s p : string) : bool :=
  match p, s with
  | EmptyString, _ => true
  | String a p', String b s' => if Ascii.eqb a b then HasPrefix s' p' else false
  | String _ _, EmptyString => false
  end.

Fixpoint drop (n : nat) (s : string) : string :=
  match n, s with
  | O, _ => s
  | S n', String _ rest => drop n' rest
  | S _, EmptyString => EmptyString
  end.

(** [strings.Cut] for a one-byte separator: the text before and after the
    first occurrence of [sep]. *)
Fixpoint Cut (sep : ascii) (s : string) : option (string * string) :=
  match s with
  | EmptyString => None
  | String c rest =>
      if Ascii.eqb c sep then Some (EmptyString, rest)
      else match Cut sep rest with
           | Some (before, after) => Some (String c before, after)
           | None => None
           end
  end.

(** [strings.SplitN(s, sep, 2)] for a one-byte separator. *)
Definition SplitN2 (s : string) (sep : ascii) : list string :=
  match Cut sep s with
  | Some (before, after) => [before; after]
  | None => [s]
  end.

Definition bytes (s : string) : list Z := map code (list_ascii_of_string s).

(** Byte-wise [<] on strings, Go's string comparison. *)
Definition ltb (a b : string) : bool :=
  match String.compare a b with Lt => true | _ => false end.

End Strs.

(** ** [crypto/sha256], [encoding/hex] and [encoding/binary] *)

Module SHA256.

Definition w32 (x : Z) : Z := x mod 2 ^ 32.

Definition rotr (n x : Z) : Z :=
  w32 (Z.lor (Z.shiftr x n) (Z.shiftl x (32 - n))).

Definition Ch (x y z : Z) : Z :=
  Z.lxor (Z.land x y) (Z.land (Z.lxor x (2 ^ 32 - 1)) z).

Definition Maj (x y z : Z) : Z :=
  Z.lxor (Z.lxor (Z.land x y) (Z.land x z)) (Z.land y z).

Definition Sigma0 (x : Z) : Z := Z.lxor (Z.lxor (rotr 2 x) (rotr 13 x)) (rotr 22 x).
Definition Sigma1 (x : Z) : Z := Z.lxor (Z.lxor (rotr 6 x) (rotr 11 x)) (rotr 25 x).
Definition sigma0 (x : Z) : Z := Z.lxor (Z.lxor (rotr 7 x) (rotr 18 x)) (Z.shiftr x 3).
Definition sigma1 (x : Z) : Z := Z.lxor (Z.lxor (rotr 17 x) (rotr 19 x)) (Z.shiftr x 10).

(** The constants of FIPS 180-4 are fractional parts of roots of the first
    primes: of their cube roots for [K], of their square roots for [H0],
    thirty-two bits each. *)
Definition isPrime (n : Z) : bool :=
  (1 <? n)
  && forallb (fun d => negb (n mod d =? 0))
       (List.filter (fun d => d * d <=? n) (map Z.of_nat (seq 2 (Z.to_nat n)))).

Definition primes : list Z :=
  Eval vm_compute in firstn 64 (List.filter isPrime (map Z.of_nat (seq 2 400))).

(** The largest [r] between [lo] and [hi] whose cube is at most [x]. *)
Fixpoint cubeRoot (fuel : nat) (lo hi x : Z) : Z :=
  match fuel with
  | O => lo
  | S fuel' =>
      if hi - lo <=? 1 then lo
      else let mid := (lo + hi) / 2 in
           if mid * mid * mid <=? x then cubeRoot fuel' mid hi x
           else cubeRoot fuel' lo mid x
  end.

Definition K : list Z :=
  Eval vm_compute in
    map (fun p => cubeRoot 64 0 (2 ^ 36) (p * 2 ^ 96) mod 2 ^ 32) primes.

Definition H0 : list Z :=
  Eval vm_compute in
    map (fun p => Z.sqrt (p * 2 ^ 64) mod 2 ^ 32) (firstn 8 primes).

(** Big-endian value of a list of bytes. *)
Definition be (bs : list Z) : Z := fold_left (fun acc b => acc * 256 + b) bs 0.

(** The [n] big-endian bytes of [x]. *)
Fixpoint be_bytes (n : nat) (x : Z) : list Z :=
  match n with
  | O => []
  | S n' => be_bytes n' (x / 256) ++ [x mod 256]
  end.

Definition pad (msg : list Z) : list Z :=
  let len := Z.of_nat (length msg) in
  let zeros := Z.to_nat ((55 - len) mod 64) in
  msg ++ [0x80] ++ repeat 0 zeros ++ be_bytes 8 (8 * len).

Fixpoint chunks (k : nat) (fuel : nat) (l : list Z) : list (list Z) :=
  match fuel, l with
  | _, [] => []
  | O, _ => []
  | S fuel', _ => firstn k l :: chunks k fuel' (skipn k l)
  end.

(** The message schedule: [win] holds the last sixteen words, oldest
    first; [schedule] lists all sixty-four. *)
Fixpoint extend (n : nat) (win : list Z) : list Z :=
  match n with
  | O => []
  | S n' =>
      let w := w32 (sigma1 (nth 14 win 0) + nth 9 win 0
                    + sigma0 (nth 1 win 0) + nth 0 win 0) in
      w :: extend n' (skipn 1 win ++ [w])
  end.

Definition schedule (block : list Z) : list Z :=
  let w16 := map be (chunks 4 16 block) in
  w16 ++ extend 48 w16.

Definition round (st : list Z) (kw : Z * Z) : list Z :=
  match st with
  | [a; b; c; d; e; f; g; h] =>
      let t1 := h + Sigma1 e + Ch e f g + fst kw + snd kw in
      let t2 := Sigma0 a + Maj a b c in
      [w32 (t1 + t2); a; b; c; w32 (d + t1); e; f; g]
  | _ => st
  end.

Definition compress (h : list Z) (block : list Z) : list Z :=
  let out := fold_left round (combine K (schedule block)) h in
  map (fun p => w32 (fst p + snd p)) (combine h out).

(** [sha256.Sum256]: the thirty-two bytes of the digest. *)
Definition Sum256 (msg : list Z) : list Z :=
  let padded := pad msg in
  let blocks := chunks 64 (length padded) padded in
  flat_map (be_bytes 4) (fold_left compress blocks H0).

Definition hexDigit (d : Z) : ascii :=
  if d <? 10 then Strs.chr (48 + d) else Strs.chr (87 + d).

(** [hex.EncodeToString]. *)
Fixpoint EncodeToString (bs : list Z) : string :=
  match bs with
  | [] => EmptyString
  | b :: rest => String (hexDigit (b / 16)) (String (hexDigit (b mod 16)) (EncodeToString rest))
  end.

(** [binary.BigEndian.Uint64] of an eight-byte slice. *)
Definition Uint64 (bs : list Z) : Z := be (firstn 8 bs).

End SHA256.

Example sha256_abc :
  SHA256.EncodeToString (SHA256.Sum256 (Strs.bytes "abc"))
  = "ba7816bf8f01cfea414140de5dae2223b00361a396177a9cb410ff61f20015ad".
Proof. vm_compute. reflexivity. Qed.

Example sha256_empty :
  SHA256.EncodeToString (SHA256.Sum256 [])
  = "e3b0c44298fc1c149afbf4c8996fb92427ae41e4649b934ca495991b7852b855".
Proof. vm_compute. reflexivity. Qed.

Example sha256_two_blocks :
  SHA256.EncodeToString
    (SHA256.Sum256 (Strs.bytes "abcdbcdecdefdefgefghfghighijhijkijkljklmklmnlmnomnopnopq"))
  = "248d6a61d20638b8e5c026930c3e6039a33ce45964ff2167f6ecedd419db06c1".
Proof. vm_compute. reflexivity. Qed.

(** ** [strconv] *)

Module Strconv.

Definition minInt : Z := - 2 ^ 63.
Definition maxInt : Z := 2 ^ 63 - 1.

Definition inInt (z : Z) : bool := (minInt <=? z) && (z <=? maxInt).

Definition isDigit (c : ascii) : bool := Strs.between 48 57 c.

(** The value of a string of decimal digits, read left to right. *)
Fixpoint digits (acc : Z) (s : string) : option Z :=
  match s with
  | EmptyString => Some acc
  | String c rest =>
      if isDigit c then digits (acc * 10 + (Strs.code c - 48)) rest else None
  end.

(** [strconv.Atoi], which is also [strconv.ParseInt(s, 10, 64)] where
    [int] has 64 bits: an optional sign, at least one decimal digit and
    nothing else, the value within the range of [int]. *)
Definition Atoi (s : string) : option Z :=
  let '(neg, body) :=
    match s with
    | String "+" rest => (false, rest)
    | String "-" rest => (true, rest)
    | _ => (false, s)
    end in
  match body with
  | EmptyString => None
  | _ =>
      match digits 0 body with
      | Some v => let z := if neg then - v else v in
                  if inInt z then Some z else None
      | None => None
      end
  end.

(** A floating-point value converted to [int]: the fraction is dropped.
    Go leaves the result open when the value does not fit; the embedding
    follows amd64, which yields the least [int]. *)
Definition truncate (f : spec_float) : option Z :=
  match f with
  | S754_zero _ => Some 0
  | S754_finite sign m e =>
      let mag := if 0 <=? e then Zpos m * 2 ^ e else Zpos m / 2 ^ (- e) in
      Some (if sign then - mag else mag)
  | _ => None
  end.

Definition intOfFloat (f : spec_float) : Z :=
  match truncate f with
  | Some z => if inInt z then z else minInt
  | None => minInt
  end.

(** A plain decimal literal: an optional sign, digits, and optionally a
    point and digits, with at least one digit.  The result is the sign,
    the number all the digits spell and the count of digits after the
    point. *)
Definition plainDecimal (s : string) : option (bool * Z * nat) :=
  let '(neg, body) :=
    match s with
    | String "+" rest => (false, rest)
    | String "-" rest => (true, rest)
    | _ => (false, s)
    end in
  let '(whole, frac) :=
    match Strs.Cut "." body with
    | Some parts => parts
    | None => (body, EmptyString)
    end in
  if (String.length whole + String.length frac =? 0)%nat then None
  else match digits 0 (String.append whole frac) with
       | Some m => Some (neg, m, String.length frac)
       | None => None
       end.

Definition float64 (m : Z) : spec_float := binary_normalize 53 1024 m 0 false.

Section Float.

(** [strconv.ParseFloat(s, 64)] on every text the embedding does not
    compute itself: exponents, hexadecimal literals, infinities, NaN,
    underscores, long mantissas. *)
Variable ParseFloatRest : string -> option spec_float.

(** [strconv.ParseFloat(s, 64)], [None] standing for an error.  On a
    plain decimal literal whose digits spell a number below 2^53 with at
    most 22 of them after the point, the correctly rounded value is the
    quotient of two exact doubles. *)
Definition ParseFloat (s : string) : option spec_float :=
  match plainDecimal s with
  | Some (neg, m, k) =>
      if (m <? 2 ^ 53) && (k <=? 22)%nat then
        let f := SFdiv 53 1024 (float64 m) (float64 (10 ^ Z.of_nat k)) in
        Some (if neg then SFopp f else f)
      else ParseFloatRest s
  | None => ParseFloatRest s
  end.

End Float.

End Strconv.

(** ** [time] *)

Module Time.

Definition Nanosecond : Z := 1.
Definition Second : Z := 1000000000.
Definition Minute : Z := 60 * Second.
Definition Hour : Z := 60 * Minute.

Definition After (t u : Z) : bool := u <? t.
Definition Before (t u : Z) : bool := t <? u.
Definition Add (t d : Z) : Z := t + d.
Definition IsZero (t : Z) : bool := t =? 0.

(** [t.Sub(u)] is a [Duration], an [int64]: it saturates. *)
Definition Sub (t u : Z) : Z :=
  Z.max Strconv.minInt (Z.min Strconv.maxInt (t - u)).

End Time.

(** ** [net/http]: headers *)

Module Http.

Abbreviation Header := (gmap string (list string)).

(** The bytes [textproto] allows in a header field name. *)
Definition isTokenByte (c : ascii) : bool :=
  Strs.between 48 57 c || Strs.between 65 90 c || Strs.between 97 122 c
  || existsb (Ascii.eqb c)
       (list_ascii_of_string "!#$%&'*+-.^_`|~").

Fixpoint allToken (s : string) : bool :=
  match s with
  | EmptyString => true
  | String c rest => isTokenByte c && allToken rest
  end.

Fixpoint canonical (upper : bool) (s : string) : string :=
  match s with
  | EmptyString => EmptyString
  | String c rest =>
      let c' := if upper then Strs.upperByte c else Strs.lowerByte c in
      String c' (canonical (Ascii.eqb c' "-") rest)
  end.

(** [textproto.CanonicalMIMEHeaderKey]: a name that is not a token is
    returned as it is. *)
Definition CanonicalMIMEHeaderKey (s : string) : string :=
  if allToken s then canonical true s else s.

(** [Header.Get]: the first value stored under the canonical key. *)
Definition Get (h : Header) (key : string) : string :=
  match h !! CanonicalMIMEHeaderKey key with
  | Some (v :: _) => v
  | _ => EmptyString
  end.

Definition Set_ (h : Header) (key value : string) : Header :=
  <[CanonicalMIMEHeaderKey key := [value]]> h.

Definition Del (h : Header) (key : string) : Header :=
  delete (CanonicalMIMEHeaderKey key) h.

End Http.

Example canonical_session_id : Http.CanonicalMIMEHeaderKey "session_id" = "Session_id".
Proof. reflexivity. Qed.

Example canonical_goog : Http.CanonicalMIMEHeaderKey "x-goog-api-key" = "X-Goog-Api-Key".
Proof. reflexivity. Qed.

(** ** The sticky selector *)

Module Sticky.

(** *** Data *)

(** A value of Go's [any], as far as [priorityFromAny] tells values apart:
    the four numeric types it accepts, strings, and everything else (nil,
    booleans, other numeric types, composite values). *)
Inductive any : Type :=
| AInt (v : Z)
| AInt64 (v : Z)
| AFloat64 (f : spec_float)
| AFloat32 (f : spec_float)
| AString (s : string)
| AOther.

Inductive Status : Type :=
| StatusActive | StatusDisabled | StatusInvalid | StatusPending.

Record QuotaState : Type := {
  Exceeded : bool;
  NextRecoverAt : Z
}.

Record ModelState : Type := {
  Unavailable : bool;
  NextRetryAfter : Z;
  ModelQuota : QuotaState
}.

(** Modelled from the spec: the declaration of [Auth] is in a file of the
    package that is not at hand.  [ID], [Provider], [Status], [Metadata],
    [Attributes] and [ModelStates] are the fields the selector and its
    tests use; [Disabled] and [Quota] are the fields section 3 of the
    specification lists for the same record. *)
Record Auth : Type := {
  ID : string;
  Provider : string;
  AuthStatus : Status;
  Disabled : bool;
  Metadata : gmap string any;
  Attributes : gmap string string;
  Quota : QuotaState;
  ModelStates : gmap string ModelState
}.

Record Error : Type := {
  Code : string;
  Message : string
}.

Record Options : Type := {
  Headers : Http.Header;
  OriginalRequest : string
}.

Record stickyBinding : Type := {
  authID : string;
  expiresAt : Z;
  lastUsedAt : Z
}.

Definition stickySessionTTL : Z := Time.Hour.
Definition defaultAuthPriority : Z := 50.
Definition stickyGCInterval : Z := 10 * Time.Minute.
Definition stickyGCMinEntries : Z := 1024.

(** *** Priorities *)

Definition priorityFromAny (v : any) : Z * bool :=
  match v with
  | AInt val => (val, true)
  | AInt64 val => (val, true)
  | AFloat64 val => (Strconv.intOfFloat val, true)
  | AFloat32 val => (Strconv.intOfFloat val, true)
  | AString val =>
      let val := Strs.TrimSpace val in
      if String.eqb val "" then (0, false)
      else match Strconv.Atoi val with
           | Some parsed => (parsed, true)
           | None => (0, false)
           end
  | AOther => (0, false)
  end.

Definition attributePriority (a : Auth) : Z :=
  let v := Strs.TrimSpace (default EmptyString (Attributes a !! "priority")) in
  if String.eqb v "" then defaultAuthPriority
  else match Strconv.Atoi v with
       | Some p => p
       | None => defaultAuthPriority
       end.

Definition authPriority (a : option Auth) : Z :=
  match a with
  | None => defaultAuthPriority
  | Some a =>
      match Metadata a !! "priority" with
      | Some v =>
          match priorityFromAny v with
          | (p, true) => p
          | (_, false) => attributePriority a
          end
      | None => attributePriority a
      end
  end.

(** *** Bindings and their garbage collection *)

(** The test both [gcLocked] and the load count apply to a binding. *)
Definition stale (now : Z) (v : stickyBinding) : bool :=
  String.eqb (authID v) "" || Time.After now (expiresAt v).

Definition gcBindings (now : Z) (m : gmap string stickyBinding)
  : gmap string stickyBinding :=
  filter (fun kv => stale now kv.2 = false) m.

(** *** Session keys *)

Definition extractBearerToken (header : string) : string :=
  let header := Strs.TrimSpace header in
  if String.eqb header "" then EmptyString
  else match Strs.SplitN2 header " " with
       | [scheme; rest] =>
           if negb (String.eqb (Strs.ToLower scheme) "bearer") then header
           else Strs.TrimSpace rest
       | _ => header
       end.

Definition stableHash (input : string) : string :=
  let input := Strs.TrimSpace input in
  if String.eqb input "" then EmptyString
  else SHA256.EncodeToString (firstn 16 (SHA256.Sum256 (Strs.bytes input))).

(** [claudeSessionRegex], the expression [session_([a-f0-9-]{36})]. *)
Definition isSessionByte (c : ascii) : bool :=
  Strs.between 97 102 c || Strs.between 48 57 c || Ascii.eqb c "-".

Fixpoint takeSessionBytes (n : nat) (s : string) : option string :=
  match n with
  | O => Some EmptyString
  | S n' =>
      match s with
      | String c rest =>
          if isSessionByte c
          then option_map (String c) (takeSessionBytes n' rest)
          else None
      | EmptyString => None
      end
  end.

Definition matchSessionAt (s : string) : option string :=
  if Strs.HasPrefix s "session_" then takeSessionBytes 36 (Strs.drop 8 s)
  else None.

(** [claudeSessionRegex.FindStringSubmatch]: the leftmost match and its
    group, or the empty slice. *)
Fixpoint FindStringSubmatch (s : string) : list string :=
  match matchSessionAt s with
  | Some group => [String.append "session_" group; group]
  | None =>
      match s with
      | EmptyString => []
      | String _ rest => FindStringSubmatch rest
      end
  end.

(** [prefix + stableHash(value)] when [value] and its hash are not empty. *)
Definition hashedKey (prefix value : string) : option string :=
  if String.eqb value "" then None
  else let hashed := stableHash value in
       if String.eqb hashed "" then None
       else Some (String.append prefix hashed).

(** *** Rendezvous hashing *)

(** A [hash.Hash] of [crypto/sha256]: [Write] appends to what was
    written, [Sum] digests it. *)
Definition hashNew : list Z := [].
Definition hashWrite (h p : list Z) : list Z := h ++ p.
Definition hashSum (h : list Z) : list Z := SHA256.Sum256 h.

Definition rendezvousScore (sessionKey authID : string) : Z :=
  let h := hashNew in
  let h := hashWrite h (Strs.bytes sessionKey) in
  let h := hashWrite h [0] in
  let h := hashWrite h (Strs.bytes authID) in
  let sum := hashSum h in
  SHA256.Uint64 (firstn 8 sum).

(** One turn of the loop of [pickRendezvous]; the accumulator is the
    pair of [best] and [bestScore], [None] while [best] is nil. *)
Definition rendezvousStep (sessionKey : string)
    (best : option (Auth * Z)) (candidate : option Auth) : option (Auth * Z) :=
  match candidate with
  | None => best
  | Some c =>
      if String.eqb (ID c) "" then best
      else
        let score := rendezvousScore sessionKey (ID c) in
        match best with
        | None => Some (c, score)
        | Some (b, bestScore) =>
            if (bestScore <? score)
               || ((score =? bestScore) && Strs.ltb (ID c) (ID b))
            then Some (c, score)
            else best
        end
  end.

Definition pickRendezvous (sessionKey : string) (available : list (option Auth))
  : option Auth :=
  if String.eqb sessionKey "" || (Z.of_nat (length available) =? 0) then None
  else option_map fst (fold_left (rendezvousStep sessionKey) available None).

(** *** The steps of [Pick] after the binding lookup *)

Definition lowerOf (m : Z) (p : Z) : Z := if p <? m then p else m.

Definition minPriorityOf (available : list (option Auth)) : Z :=
  fold_left (fun m c => lowerOf m (authPriority c)) available Strconv.maxInt.

Definition priorityFiltered (available : list (option Auth)) : list (option Auth) :=
  let minPriority := minPriorityOf available in
  List.filter (fun c => authPriority c =? minPriority) available.

Definition loadByAuthID (provider : string) (now : Z)
    (m : gmap string stickyBinding) : gmap string Z :=
  map_fold
    (fun k binding load =>
       if negb (Strs.HasPrefix k (String.append provider ":")) then load
       else if stale now binding then load
       else <[authID binding := default 0 (load !! authID binding) + 1]> load)
    ∅ m.

Definition loadOf (load : gmap string Z) (id : string) : Z :=
  default 0 (load !! id).

Definition named (c : option Auth) : bool :=
  match c with
  | Some a => negb (String.eqb (ID a) "")
  | None => false
  end.

Definition candidateLoad (load : gmap string Z) (c : option Auth) : Z :=
  match c with
  | Some a => loadOf load (ID a)
  | None => 0
  end.

Definition minLoadOf (load : gmap string Z) (filtered : list (option Auth)) : Z :=
  fold_left
    (fun m c => if named c then lowerOf m (candidateLoad load c) else m)
    filtered Strconv.maxInt.

Definition loadFiltered (load : gmap string Z) (filtered : list (option Auth))
  : list (option Auth) :=
  let minLoad := minLoadOf load filtered in
  List.filter (fun c => named c && (candidateLoad load c =? minLoad)) filtered.

(** Lines 530 to 576: the record a session without a usable binding is
    given, from the eligible candidates and the bindings in force. *)
Definition selectNew (provider sessionKey : string) (now : Z)
    (m : gmap string stickyBinding) (available : list (option Auth))
  : option Auth :=
  let filtered := priorityFiltered available in
  let load := loadByAuthID provider now m in
  pickRendezvous sessionKey (loadFiltered load filtered).

(** The loop of lines 514 to 524: the first candidate that is not nil
    and has the bound id. *)
Definition findBound (id : string) (available : list (option Auth)) : option Auth :=
  match List.find
          (fun c => match c with
                    | Some a => String.eqb (ID a) id
                    | None => false
                    end) available with
  | Some c => c
  | None => None
  end.

Definition fresh (id : string) (now : Z) : stickyBinding :=
  {| authID := id; expiresAt := Time.Add now stickySessionTTL; lastUsedAt := now |}.

Record SessionBindingStatus : Type := {
  AuthID : string;
  SessionCount : Z;
  LastUsedAt : Z
}.

Section Selector.

(** The state of the round-robin selector the sticky one embeds, and its
    [Pick]; both live in a file that is not at hand and are used only
    for requests without a session key. *)
Variable RoundRobinSelector : Type.

Record StickySelector : Type := {
  bindings : gmap string stickyBinding;
  lastGC : Z;
  rr : RoundRobinSelector
}.

Definition gcLocked (s : StickySelector) (now : Z) : StickySelector :=
  if (Z.of_nat (size (bindings s)) =? 0)
  then {| bindings := bindings s; lastGC := now; rr := rr s |}
  else {| bindings := gcBindings now (bindings s); lastGC := now; rr := rr s |}.

(** [gjson.GetBytes(json, path).String()]. *)
Variable gjsonGetString : string -> string -> string.

(** [RoundRobinSelector.Pick] and [getAvailableAuths], both declared in
    a file of the package that is not at hand. *)
Variable rrPick :
  RoundRobinSelector -> string -> string -> Options -> list (option Auth) ->
  (option Auth * option Error) * RoundRobinSelector.
Variable getAvailableAuths :
  list (option Auth) -> string -> string -> Z -> Error + list (option Auth).

Definition claudeSession (opts : Options) : option string :=
  if 0 <? Z.of_nat (String.length (OriginalRequest opts)) then
    let userID :=
      Strs.TrimSpace (gjsonGetString (OriginalRequest opts) "metadata.user_id") in
    if String.eqb userID "" then None
    else match FindStringSubmatch (Strs.ToLower userID) with
         | [_; group] => Some group
         | _ => None
         end
  else None.

Definition extractStickySessionKey (opts : Options) : string :=
  let headers := Headers opts in
  match hashedKey "codex:" (Strs.TrimSpace (Http.Get headers "session_id")) with
  | Some key => key
  | None =>
  match claudeSession opts with
  | Some group => String.append "claude:" group
  | None =>
  match hashedKey "apikey:" (extractBearerToken (Http.Get headers "authorization")) with
  | Some key => key
  | None =>
  match hashedKey "apikey:" (Strs.TrimSpace (Http.Get headers "x-api-key")) with
  | Some key => key
  | None =>
  match hashedKey "apikey:" (Strs.TrimSpace (Http.Get headers "x-goog-api-key")) with
  | Some key => key
  | None =>
  match hashedKey "ua:" (Strs.TrimSpace (Http.Get headers "user-agent")) with
  | Some key => key
  | None => EmptyString
  end end end end end end.

Definition gcDue (s : StickySelector) (now : Z) : bool :=
  let n := Z.of_nat (size (bindings s)) in
  (0 <? n)
  && ((stickyGCMinEntries <=? n)
      || Time.IsZero (lastGC s)
      || (stickyGCInterval <=? Time.Sub now (lastGC s))).

Definition withBindings (s : StickySelector) (m : gmap string stickyBinding)
  : StickySelector :=
  {| bindings := m; lastGC := lastGC s; rr := rr s |}.

Definition notFound : Error :=
  {| Code := "auth_not_found"; Message := "no auth available" |}.

(** Lines 530 to 587: select for a session without a usable binding and
    commit the new binding. *)
Definition bindNew (s : StickySelector) (provider sessionKey bindingKey : string)
    (now : Z) (available : list (option Auth))
  : (option Auth * option Error) * StickySelector :=
  match selectNew provider sessionKey now (bindings s) available with
  | None => ((None, Some notFound), s)
  | Some selected =>
      ((Some selected, None),
       withBindings s (<[bindingKey := fresh (ID selected) now]> (bindings s)))
  end.

Definition Pick (s : StickySelector) (now : Z) (provider model : string)
    (opts : Options) (auths : list (option Auth))
  : (option Auth * option Error) * StickySelector :=
  match getAvailableAuths auths provider model now with
  | inl err => ((None, Some err), s)
  | inr available =>
      let sessionKey := extractStickySessionKey opts in
      if String.eqb sessionKey "" then
        let '(res, rr') := rrPick (rr s) provider model opts auths in
        (res, {| bindings := bindings s; lastGC := lastGC s; rr := rr' |})
      else
        let bindingKey := String.append provider (String.append ":" sessionKey) in
        let s := if gcDue s now then gcLocked s now else s in
        match bindings s !! bindingKey with
        | Some existing =>
            if negb (String.eqb (authID existing) "")
               && Time.Before now (expiresAt existing)
            then
              match findBound (authID existing) available with
              | Some candidate =>
                  ((Some candidate, None),
                   withBindings s
                     (<[bindingKey := fresh (ID candidate) now]> (bindings s)))
              | None => bindNew s provider sessionKey bindingKey now available
              end
            else
              bindNew (withBindings s (delete bindingKey (bindings s)))
                provider sessionKey bindingKey now available
        | None => bindNew s provider sessionKey bindingKey now available
        end
  end.

(** [SessionBindingStatuses]: [now] is the reading of [time.Now()].  The
    loop of lines 365 to 376 builds the map [stats]; the slice returned
    holds its values, in the order Go happens to range over it. *)
Definition statsStep (now : Z) (k : string) (binding : stickyBinding)
    (stats : gmap string SessionBindingStatus) : gmap string SessionBindingStatus :=
  if stale now binding then stats
  else
    let entry :=
      default {| AuthID := EmptyString; SessionCount := 0; LastUsedAt := 0 |}
        (stats !! authID binding) in
    <[authID binding :=
        {| AuthID := authID binding;
           SessionCount := SessionCount entry + 1;
           LastUsedAt :=
             if Time.IsZero (LastUsedAt entry)
                || Time.After (lastUsedAt binding) (LastUsedAt entry)
             then lastUsedAt binding
             else LastUsedAt entry |}]> stats.

Definition sessionStats (now : Z) (m : gmap string stickyBinding)
  : gmap string SessionBindingStatus :=
  map_fold (statsStep now) ∅ m.

Definition SessionBindingStatuses (s : StickySelector) (now : Z)
  : list SessionBindingStatus * StickySelector :=
  let n := Z.of_nat (size (bindings s)) in
  if n =? 0 then ([], s)
  else
    let s := if (stickyGCMinEntries <=? n)
                || Time.IsZero (lastGC s)
                || (stickyGCInterval <=? Time.Sub now (lastGC s))
             then gcLocked s now else s in
    (map snd (map_to_list (sessionStats now (bindings s))), s).

End Selector.

End Sticky.

(** ** Eligibility *)

Module Eligibility.
Import Sticky.

Definition quotaBlocks (now : Z) (q : QuotaState) : bool :=
  Exceeded q && (now <? NextRecoverAt q).

Definition modelBlocks (now : Z) (ms : ModelState) : bool :=
  Unavailable ms
  && (now <? Z.min (NextRetryAfter ms) (NextRecoverAt (ModelQuota ms))).

(** Modelled from the spec: the filter of step 1 of section 4.3, which
    [getAvailableAuths] implements in a file that is not at hand.  A
    candidate is kept when its status is Active, it is not disabled, and
    neither its global quota nor its state for the model forbids
    selection at [now]. *)
Definition eligible (model : string) (now : Z) (c : option Auth) : bool :=
  match c with
  | None => false
  | Some a =>
      match AuthStatus a with StatusActive => true | _ => false end
      && negb (Disabled a)
      && negb (quotaBlocks now (Quota a))
      && match ModelStates a !! model with
         | Some ms => negb (modelBlocks now ms)
         | None => true
         end
  end.

(** Modelled from the spec: [getAvailableAuths], absent from the files at
    hand; step 1 of section 4.3 keeps the eligible candidates and fails
    with [auth_not_found] if none remain. *)
Definition getAvailableAuths (auths : list (option Auth))
    (provider model : string) (now : Z) : Error + list (option Auth) :=
  match List.filter (eligible model now) auths with
  | [] => inl {| Code := "auth_not_found"; Message := "no auth available" |}
  | kept => inr kept
  end.

End Eligibility.

(** ** [net/url]: query strings *)

Module Url.

Abbreviation Values := (gmap string (list string)).

Definition ishex (c : ascii) : bool :=
  Strs.between 48 57 c || Strs.between 97 102 c || Strs.between 65 70 c.

Definition unhex (c : ascii) : Z :=
  if Strs.between 48 57 c then Strs.code c - 48
  else if Strs.between 97 102 c then Strs.code c - 97 + 10
  else if Strs.between 65 70 c then Strs.code c - 65 + 10
  else 0.

(** [url.QueryUnescape]: [%XY] is one byte, [+] a space; a [%] that two
    hexadecimal digits do not follow is an error. *)
Fixpoint QueryUnescape (s : string) : option string :=
  match s with
  | EmptyString => Some EmptyString
  | String c rest =>
      if Ascii.eqb c "%" then
        match rest with
        | String a (String b rest') =>
            if ishex a && ishex b
            then option_map (String (Strs.chr (16 * unhex a + unhex b)))
                   (QueryUnescape rest')
            else None
        | _ => None
        end
      else if Ascii.eqb c "+" then option_map (String " ") (QueryUnescape rest)
      else option_map (String c) (QueryUnescape rest)
  end.

(** [strings.Split] for a one-byte separator. *)
Fixpoint Split (sep : ascii) (s : string) : list string :=
  match s with
  | EmptyString => [EmptyString]
  | String c rest =>
      if Ascii.eqb c sep then EmptyString :: Split sep rest
      else match Split sep rest with
           | seg :: more => String c seg :: more
           | [] => [String c EmptyString]
           end
  end.

Fixpoint Contains (s : string) (c : ascii) : bool :=
  match s with
  | EmptyString => false
  | String d rest => Ascii.eqb d c || Contains rest c
  end.

Definition firstError (err : option string) (e : string) : option string :=
  match err with
  | Some _ => err
  | None => Some e
  end.

(** One turn of the loop of [parseQuery], on the text between two [&]. *)
Definition parseSegment (st : Values * option string) (key : string)
  : Values * option string :=
  let '(m, err) := st in
  if Contains key ";" then (m, Some "invalid semicolon separator in query")
  else if String.eqb key "" then st
  else
    let '(k, v) := match Strs.Cut "=" key with
                   | Some kv => kv
                   | None => (key, EmptyString)
                   end in
    match QueryUnescape k with
    | None => (m, firstError err "invalid URL escape")
    | Some k' =>
        match QueryUnescape v with
        | None => (m, firstError err "invalid URL escape")
        | Some v' => (<[k' := (default [] (m !! k') ++ [v'])%list]> m, err)
        end
    end.

(** [url.ParseQuery]: the values it could read, and the first error. *)
Definition ParseQuery (query : string) : Values * option string :=
  fold_left parseSegment (Split "&" query) (∅, None).

(** [Values.Get]: the first value of the key, or the empty string. *)
Definition Get (v : Values) (key : string) : string :=
  match v !! key with
  | Some (x :: _) => x
  | _ => EmptyString
  end.

(** The fields of [url.URL] the callback parser reads. *)
Record URL : Type := {
  Scheme : string;
  Host : string;
  Path : string;
  RawQuery : string
}.

(** [URL.Query], which drops the error of [ParseQuery]. *)
Definition Query (u : URL) : Values := fst (ParseQuery (RawQuery u)).

End Url.

(** ** [internal/auth/kiro/callback_input.go] *)

Module Kiro.

Record AuthCallback : Type := {
  Code : string;
  State : string;
  Error : string
}.

(** What [parseOAuthCallbackInput] returns beside its error. *)
Record Parsed : Type := {
  code : string;
  state : string;
  errParam : string;
  redirectURI : string
}.

Definition redirectOf (u : Url.URL) : string :=
  String.append (Url.Scheme u)
    (String.append "://" (String.append (Url.Host u) (Url.Path u))).

(** The checks both branches of [parseOAuthCallbackInput] make on the
    values read, [redirect] being the redirect URI of the branch. *)
Definition fromValues (values : Url.Values) (redirect : string)
  : string + Parsed :=
  let code := Url.Get values "code" in
  let state := Url.Get values "state" in
  let errParam := Url.Get values "error" in
  if negb (String.eqb errParam "") then
    inr {| code := EmptyString; state := state; errParam := errParam;
           redirectURI := redirect |}
  else if String.eqb code "" then inl "missing code in callback"
  else if String.eqb state "" then inl "missing state in callback"
  else inr {| code := code; state := state; errParam := errParam;
              redirectURI := redirect |}.

Section Callback.

(** [url.Parse]: the URL or the text of the error. *)
Variable urlParse : string -> string + Url.URL.

Definition parseOAuthCallbackInput (raw : string) : string + Parsed :=
  let input := Strs.TrimSpace raw in
  if String.eqb input "" then inl "empty callback input"
  else if Strs.HasPrefix input "http://" || Strs.HasPrefix input "https://"
          || Strs.HasPrefix input "kiro://"
  then
    match urlParse input with
    | inl err => inl (String.append "invalid callback URL: " err)
    | inr parsedURL => fromValues (Url.Query parsedURL) (redirectOf parsedURL)
    end
  else
    match Url.ParseQuery input with
    | (_, Some err) => inl (String.append "invalid callback query: " err)
    | (values, None) => fromValues values EmptyString
    end.

Definition parseAndValidateCallbackInput (expectedState raw : string)
  : string + (AuthCallback * string) :=
  match parseOAuthCallbackInput raw with
  | inl err => inl err
  | inr p =>
      if negb (String.eqb expectedState "") && negb (String.eqb (state p) "")
         && negb (String.eqb (state p) expectedState)
      then inl "state mismatch"
      else inr ({| Code := code p; State := state p; Error := errParam p |},
                redirectURI p)
  end.

End Callback.

End Kiro.

(** ** [internal/usage/codex_quota.go] *)

Module CodexQuota.

Record CodexQuotaSnapshot : Type := {
  PlanType : string;
  PrimaryUsedPercent : option spec_float;
  PrimaryResetAfterSeconds : option Z;
  PrimaryWindowMinutes : option Z;
  SecondaryUsedPercent : option spec_float;
  SecondaryResetAfterSeconds : option Z;
  SecondaryWindowMinutes : option Z;
  PrimaryOverSecondaryPercent : option spec_float;
  PrimaryResetAtSeconds : option Z;
  SecondaryResetAtSeconds : option Z;
  CreditsHasCredits : option bool;
  CreditsBalance : option string;
  CreditsUnlimited : option bool;
  UpdatedAt : Z
}.

Definition parseInt (headers : Http.Header) (key : string) : option Z :=
  let v := Http.Get headers key in
  if String.eqb v "" then None else Strconv.Atoi v.

Definition parseInt64 (headers : Http.Header) (key : string) : option Z :=
  let v := Http.Get headers key in
  if String.eqb v "" then None else Strconv.Atoi v.

Definition parseBool (headers : Http.Header) (key : string) : option bool :=
  let v := Strs.TrimSpace (Http.Get headers key) in
  if String.eqb v "" then None
  else
    let l := Strs.ToLower v in
    if String.eqb l "true" || String.eqb l "1" || String.eqb l "yes" then Some true
    else if String.eqb l "false" || String.eqb l "0" || String.eqb l "no" then Some false
    else None.

Definition parseString (headers : Http.Header) (key : string) : option string :=
  let v := Http.Get headers key in
  if String.eqb v "" then None else Some v.

Definition set {A : Type} (o : option A) : bool :=
  match o with Some _ => true | None => false end.

Section Parse.

Variable ParseFloatRest : string -> option spec_float.

Definition parseFloat (headers : Http.Header) (key : string) : option spec_float :=
  let v := Http.Get headers key in
  if String.eqb v "" then None else Strconv.ParseFloat ParseFloatRest v.

(** [now] is the reading of [time.Now()]; a nil header map is read like
    the empty one, for which the result is nil just the same. *)
Definition ParseCodexQuotaSnapshot (now : Z) (headers : Http.Header)
  : option CodexQuotaSnapshot :=
  let plan := Strs.TrimSpace (Http.Get headers "x-codex-plan-type") in
  let snapshot :=
    {| PlanType := plan;
       PrimaryUsedPercent := parseFloat headers "x-codex-primary-used-percent";
       PrimaryResetAfterSeconds := parseInt headers "x-codex-primary-reset-after-seconds";
       PrimaryWindowMinutes := parseInt headers "x-codex-primary-window-minutes";
       SecondaryUsedPercent := parseFloat headers "x-codex-secondary-used-percent";
       SecondaryResetAfterSeconds := parseInt headers "x-codex-secondary-reset-after-seconds";
       SecondaryWindowMinutes := parseInt headers "x-codex-secondary-window-minutes";
       PrimaryOverSecondaryPercent :=
         parseFloat headers "x-codex-primary-over-secondary-limit-percent";
       PrimaryResetAtSeconds := parseInt64 headers "x-codex-primary-reset-at";
       SecondaryResetAtSeconds := parseInt64 headers "x-codex-secondary-reset-at";
       CreditsHasCredits := parseBool headers "x-codex-credits-has-credits";
       CreditsBalance := parseString headers "x-codex-credits-balance";
       CreditsUnlimited := parseBool headers "x-codex-credits-unlimited";
       UpdatedAt := now |} in
  let hasData :=
    negb (String.eqb plan "")
    || set (PrimaryUsedPercent snapshot) || set (PrimaryResetAfterSeconds snapshot)
    || set (PrimaryWindowMinutes snapshot) || set (SecondaryUsedPercent snapshot)
    || set (SecondaryResetAfterSeconds snapshot) || set (SecondaryWindowMinutes snapshot)
    || set (PrimaryOverSecondaryPercent snapshot) || set (PrimaryResetAtSeconds snapshot)
    || set (SecondaryResetAtSeconds snapshot) || set (CreditsHasCredits snapshot)
    || set (CreditsBalance snapshot) || set (CreditsUnlimited snapshot) in
  if hasData then Some snapshot else None.

End Parse.

(** [codexQuotaByAuth], the [sync.Map] from authID to snapshot value. *)
Abbreviation Store := (gmap string CodexQuotaSnapshot).

Definition UpdateCodexQuotaSnapshot (store : Store) (authID : string)
    (snapshot : option CodexQuotaSnapshot) : Store :=
  match snapshot with
  | None => store
  | Some snap => if String.eqb authID "" then store else <[authID := snap]> store
  end.

Definition DeleteCodexQuotaSnapshot (store : Store) (authID : string) : Store :=
  if String.eqb authID "" then store else delete authID store.

Definition GetCodexQuotaSnapshot (store : Store) (authID : string)
  : option CodexQuotaSnapshot :=
  if String.eqb authID "" then None else store !! authID.

End CodexQuota.

(** * Properties *)

(** ** Strings and hashes *)

Lemma eqb_empty_false (s : string) : s <> EmptyString -> String.eqb s "" = false.
Proof. intros H. apply String.eqb_neq. exact H. Qed.

Lemma TrimRight_idem (s : string) : Strs.TrimRight (Strs.TrimRight s) = Strs.TrimRight s.
Proof.
  induction s as [|c rest IH]; simpl; [reflexivity|].
  destruct (Strs.TrimRight rest) as [|k kept] eqn:E.
  - destruct (Strs.isSpace c) eqn:Ec; simpl; [reflexivity|]. rewrite Ec. reflexivity.
  - simpl in IH. simpl. destruct (Strs.TrimRight kept) as [|k' kept'] eqn:E'.
    + destruct (Strs.isSpace k); congruence.
    + rewrite IH. reflexivity.
Qed.

(** A string that does not begin with white space. *)
Definition headed (s : string) : Prop :=
  match s with
  | EmptyString => True
  | String c _ => Strs.isSpace c = false
  end.


Lemma TrimLeft_of_headed (s : string) : headed s -> Strs.TrimLeft s = s.
Proof. destruct s as [|c rest]; simpl; [reflexivity|]. intros ->. reflexivity. Qed.




(** A suffix of a string without trailing white space has none either. *)
Lemma TrimRight_suffix (c : ascii) (s : string) :
  Strs.TrimRight (String c s) = String c s -> Strs.TrimRight s = s.
Proof.
  simpl. destruct (Strs.TrimRight s) as [|k kept] eqn:E.
  - destruct (Strs.isSpace c); [discriminate|]. intros H. injection H as <-. reflexivity.
  - intros H. injection H as <-. reflexivity.
Qed.

Lemma TrimRight_nonempty (s : string) :
  Strs.TrimRight s = s -> s <> EmptyString -> headed s -> Strs.TrimSpace s = s.
Proof.
  intros H _ Hh. unfold Strs.TrimSpace. rewrite (TrimLeft_of_headed _ Hh). exact H.
Qed.









(** The hash of the specification: the hexadecimal text of the first
    sixteen bytes of the SHA-256 digest. *)
Definition sha256_16 (s : string) : string :=
  SHA256.EncodeToString (firstn 16 (SHA256.Sum256 (Strs.bytes s))).




Lemma hashedKey_empty (prefix : string) : Sticky.hashedKey prefix "" = None.
Proof. reflexivity. Qed.


Lemma Cut_spec (sep : ascii) (s a b : string) :
  Strs.Cut sep s = Some (a, b) ->
  s = a +:+ String sep b /\ Url.Contains a sep = false.
Proof.
  revert a. induction s as [|c rest IH]; intros a; simpl; [discriminate|].
  destruct (Ascii.eqb c sep) eqn:Ec.
  - intros H. injection H as <- <-. apply Ascii.eqb_eq in Ec. subst c. split; reflexivity.
  - destruct (Strs.Cut sep rest) as [[before after]|]; [|discriminate].
    intros H. injection H as <- <-. destruct (IH before eq_refl) as [-> Hc].
    split; [reflexivity|]. simpl. rewrite Ec. exact Hc.
Qed.

Lemma Cut_none (sep : ascii) (s : string) :
  Strs.Cut sep s = None -> Url.Contains s sep = false.
Proof.
  induction s as [|c rest IH]; simpl; [reflexivity|].
  destruct (Ascii.eqb c sep); [discriminate|].
  destruct (Strs.Cut sep rest) as [[before after]|]; [discriminate|].
  intros _. apply IH. reflexivity.
Qed.



Lemma TrimRight_append (a b : string) :
  Strs.TrimRight (a +:+ b) = a +:+ b -> Strs.TrimRight b = b.
Proof.
  induction a as [|c a IH]; simpl; [exact (fun H => H)|].
  intros H. apply IH. apply (TrimRight_suffix c). exact H.
Qed.

Lemma TrimRight_fixed_nonempty (s : string) :
  Strs.TrimRight s = s -> s <> EmptyString -> Strs.TrimSpace s <> EmptyString.
Proof.
  induction s as [|c rest IH]; [congruence|]. intros H _.
  unfold Strs.TrimSpace. simpl Strs.TrimLeft.
  destruct (Strs.isSpace c) eqn:Ec.
  - pose proof (TrimRight_suffix c rest H) as Hr.
    destruct rest as [|d rest'].
    + simpl in H. rewrite Ec in H. discriminate.
    + apply IH; [exact Hr|discriminate].
  - rewrite H. discriminate.
Qed.

Lemma extractBearerToken_nonempty (header : string) :
  Strs.TrimSpace header <> EmptyString ->
  Sticky.extractBearerToken header <> EmptyString.
Proof.
  intros Hne. unfold Sticky.extractBearerToken, Strs.SplitN2.
  rewrite (eqb_empty_false _ Hne).
  destruct (Strs.Cut " " (Strs.TrimSpace header)) as [[scheme rest]|] eqn:E; [|exact Hne].
  destruct (negb (String.eqb (Strs.ToLower scheme) "bearer")); [exact Hne|].
  destruct (Cut_spec _ _ _ _ E) as [Hs _].
  pose proof (TrimRight_idem (Strs.TrimLeft header)) as Hfix.
  change (Strs.TrimRight (Strs.TrimLeft header)) with (Strs.TrimSpace header) in Hfix.
  rewrite Hs in Hfix. apply TrimRight_append in Hfix.
  pose proof (TrimRight_suffix _ _ Hfix) as Hrest.
  apply TrimRight_fixed_nonempty; [exact Hrest|].
  intros ->. simpl in Hfix. discriminate.
Qed.

(** ** The session pattern *)











(** ** Session keys *)


Section SessionKeys.

Variable gjsonGetString : string -> string -> string.

Local Abbreviation extractStickySessionKey :=
  (Sticky.extractStickySessionKey gjsonGetString).
Local Abbreviation claudeSession := (Sticky.claudeSession gjsonGetString).





Lemma ToLower_empty (s : string) : Strs.ToLower s = EmptyString -> s = EmptyString.
Proof. destruct s; [reflexivity|discriminate]. Qed.




End SessionKeys.

(** ** Concrete requests *)

Module Scenario.

(** The reading of [gjson] on a body whose [metadata.user_id] is [userID]
    (the empty text when the field is absent). *)
Definition gjsonOf (userID : string) : string -> string -> string :=
  fun _ path => if String.eqb path "metadata.user_id" then userID else EmptyString.

Definition headersOf (l : list (string * string)) : Http.Header :=
  fold_left (fun h kv => Http.Set_ h (fst kv) (snd kv)) l ∅.

Definition request (l : list (string * string)) : Sticky.Options :=
  {| Sticky.Headers := headersOf l; Sticky.OriginalRequest := "{}" |}.

Definition testUserID : string :=
  "user_aaaaaaaaaaaaaaaaaaaaaaaaaaaaaaaaaaaaaaaaaaaaaaaaaaaaaaaaaaaaaaaa_account__session_11111111-2222-3333-4444-555555555555".

End Scenario.

(** The four steps of [TestExtractStickySessionKey_PriorityOrder]. *)
Example key_from_session_id :
  Sticky.extractStickySessionKey (Scenario.gjsonOf Scenario.testUserID)
    (Scenario.request [("session_id", "s123"); ("Authorization", "Bearer api-key-1");
                       ("User-Agent", "ua-test")])
  = "codex:a9dcdc7159d1a9daae0ccc718f5dbc2b".
Proof. vm_compute. reflexivity. Qed.

Example key_from_user_id :
  Sticky.extractStickySessionKey (Scenario.gjsonOf Scenario.testUserID)
    (Scenario.request [("Authorization", "Bearer api-key-1"); ("User-Agent", "ua-test")])
  = "claude:11111111-2222-3333-4444-555555555555".
Proof. vm_compute. reflexivity. Qed.

Example key_from_bearer_token :
  Sticky.extractStickySessionKey (Scenario.gjsonOf "not-a-match")
    (Scenario.request [("Authorization", "Bearer api-key-1"); ("User-Agent", "ua-test")])
  = "apikey:" +:+ sha256_16 "api-key-1".
Proof. vm_compute. reflexivity. Qed.

Example key_from_user_agent :
  Sticky.extractStickySessionKey (Scenario.gjsonOf "not-a-match")
    (Scenario.request [("User-Agent", "ua-test")])
  = "ua:" +:+ sha256_16 "ua-test".
Proof. vm_compute. reflexivity. Qed.


(** ** The Kiro callback *)

Module KiroScenario.

(** A reading of [url.Parse] for inputs that are bare query strings, on
    which [parseOAuthCallbackInput] never calls it. *)
Definition notURL : string -> string + Url.URL := fun _ => inl "not a URL".

End KiroScenario.

Section KiroCallback.

Variable urlParse : string -> string + Url.URL.

Local Abbreviation parseOAuthCallbackInput := (Kiro.parseOAuthCallbackInput urlParse).
Local Abbreviation parseAndValidateCallbackInput :=
  (Kiro.parseAndValidateCallbackInput urlParse).

Definition accepted (p : Kiro.Parsed) : string + (Kiro.AuthCallback * string) :=
  inr ({| Kiro.Code := Kiro.code p; Kiro.State := Kiro.state p;
          Kiro.Error := Kiro.errParam p |}, Kiro.redirectURI p).

Lemma fromValues_stateless (values : Url.Values) (redirect : string) (p : Kiro.Parsed) :
  Kiro.fromValues values redirect = inr p ->
  Kiro.state p = EmptyString ->
  Kiro.errParam p <> EmptyString /\ Kiro.code p = EmptyString.
Proof.
  unfold Kiro.fromValues.
  destruct (String.eqb (Url.Get values "error") "") eqn:Ee; simpl negb; cbv iota.
  - destruct (String.eqb (Url.Get values "code") ""); [discriminate|].
    destruct (String.eqb (Url.Get values "state") "") eqn:Es; [discriminate|].
    intros H. injection H as <-. simpl. intros Hs. rewrite Hs in Es. discriminate.
  - intros H. injection H as <-. simpl. intros _. split; [|reflexivity].
    apply String.eqb_neq. exact Ee.
Qed.

Lemma parsed_stateless (raw : string) (p : Kiro.Parsed) :
  parseOAuthCallbackInput raw = inr p ->
  Kiro.state p = EmptyString ->
  Kiro.errParam p <> EmptyString /\ Kiro.code p = EmptyString.
Proof.
  unfold Kiro.parseOAuthCallbackInput.
  destruct (String.eqb (Strs.TrimSpace raw) ""); [discriminate|].
  destruct (_ || _).
  - destruct (urlParse (Strs.TrimSpace raw)); [discriminate|]. apply fromValues_stateless.
  - destruct (Url.ParseQuery (Strs.TrimSpace raw)) as [values [err|]]; [discriminate|].
    apply fromValues_stateless.
Qed.

(** C8, amended.  When the callback parses, the expected state is not empty
    and the callback has a state, validation succeeds exactly when the two
    states are equal and fails with "state mismatch" when they differ.  A
    callback without a state is accepted unchecked, and it is always one
    that carries an error parameter and no code; an empty expected state
    switches the check off; an input that does not parse fails with the
    parser's error. *)
Theorem callback_state_is_verified (expectedState raw : string) :
  match parseOAuthCallbackInput raw with
  | inl err => parseAndValidateCallbackInput expectedState raw = inl err
  | inr p =>
      (expectedState <> EmptyString -> Kiro.state p <> EmptyString ->
       (Kiro.state p = expectedState ->
        parseAndValidateCallbackInput expectedState raw = accepted p)
       /\ (Kiro.state p <> expectedState ->
           parseAndValidateCallbackInput expectedState raw = inl "state mismatch"))
      /\ (Kiro.state p = EmptyString ->
          parseAndValidateCallbackInput expectedState raw = accepted p
          /\ Kiro.errParam p <> EmptyString /\ Kiro.code p = EmptyString)
      /\ (expectedState = EmptyString ->
          parseAndValidateCallbackInput expectedState raw = accepted p)
  end.
Proof.
  unfold Kiro.parseAndValidateCallbackInput.
  destruct (parseOAuthCallbackInput raw) as [err|p] eqn:E; [reflexivity|].
  split; [|split].
  - intros He Hs. apply String.eqb_neq in He, Hs. rewrite He, Hs. simpl. split.
    + intros Heq. apply String.eqb_eq in Heq. rewrite Heq. reflexivity.
    + intros Hd. apply String.eqb_neq in Hd. rewrite Hd. reflexivity.
  - intros Hs. split; [|exact (parsed_stateless raw p E Hs)].
    assert (Hb : String.eqb (Kiro.state p) "" = true) by (apply String.eqb_eq; exact Hs).
    rewrite Hb. simpl negb. rewrite andb_false_r. reflexivity.
  - intros ->. reflexivity.
Qed.

End KiroCallback.

(** [TestParseAndValidateCallbackInput_StateMismatch], on a query string. *)
Example callback_state_mismatch :
  Kiro.parseAndValidateCallbackInput KiroScenario.notURL "expected" "code=abc&state=other"
  = inl "state mismatch".
Proof. vm_compute. reflexivity. Qed.

(** C8 as stated fails: with the expected state "expected", the callback
    [error=access_denied], whose state is empty and so differs, is accepted. *)
Lemma callback_without_state_is_accepted :
  Kiro.parseAndValidateCallbackInput KiroScenario.notURL "expected" "error=access_denied"
  = inr ({| Kiro.Code := ""; Kiro.State := ""; Kiro.Error := "access_denied" |}, "")
  /\ "" <> "expected".
Proof. split; [vm_compute; reflexivity|discriminate]. Qed.

(** The reading of C8 as it is stated: whatever validation accepts carries
    the expected state. *)
Definition accepts_only_expected_state (urlParse : string -> string + Url.URL) : Prop :=
  forall expectedState raw cb redirect,
    expectedState <> EmptyString ->
    Kiro.parseAndValidateCallbackInput urlParse expectedState raw = inr (cb, redirect) ->
    Kiro.State cb = expectedState.

Lemma callback_state_claim_fails : ~ accepts_only_expected_state KiroScenario.notURL.
Proof.
  intros H.
  specialize (H "expected" "error=access_denied" _ _ ltac:(discriminate)
                (proj1 callback_without_state_is_accepted)).
  discriminate H.
Qed.

(** The amended C8 at the callback [code=abc&state=st1] expected with [st1]. *)
Lemma callback_state_witness :
  Kiro.parseAndValidateCallbackInput KiroScenario.notURL "st1" "code=abc&state=st1"
  = inr ({| Kiro.Code := "abc"; Kiro.State := "st1"; Kiro.Error := "" |}, "").
Proof.
  generalize (callback_state_is_verified KiroScenario.notURL "st1" "code=abc&state=st1").
  assert (E : Kiro.parseOAuthCallbackInput KiroScenario.notURL "code=abc&state=st1"
              = inr {| Kiro.code := "abc"; Kiro.state := "st1"; Kiro.errParam := "";
                       Kiro.redirectURI := "" |}) by (vm_compute; reflexivity).
  rewrite E. intros [H _]. destruct H as [H _]; [discriminate|discriminate|].
  rewrite H by reflexivity. reflexivity.
Defined.

(** ** Codex quota snapshots *)

(** 12.5 as a double: 7036874417766400 * 2^-49. *)
Definition twelve_and_a_half : spec_float := S754_finite false 7036874417766400 (-49).

Example twelve_and_a_half_value : 2 * 7036874417766400 = 25 * 2 ^ 49.
Proof. reflexivity. Qed.

Section CodexQuotaProperties.

Variable ParseFloatRest : string -> option spec_float.

Local Abbreviation ParseCodexQuotaSnapshot :=
  (CodexQuota.ParseCodexQuotaSnapshot ParseFloatRest).

(** C9. Headers with x-codex-plan-type=team, x-codex-primary-used-percent=12.5
    and x-codex-credits-has-credits=False parse to a snapshot whose plan type
    is "team", whose primary used percent is 12.5 and whose has-credits flag
    is false; and a snapshot stored under an authID that is not empty is the
    one read back under it. *)
Theorem codex_quota_parse_and_store :
  (forall (now : Z) (headers : Http.Header),
      Http.Get headers "x-codex-plan-type" = "team" ->
      Http.Get headers "x-codex-primary-used-percent" = "12.5" ->
      Http.Get headers "x-codex-credits-has-credits" = "False" ->
      exists snapshot,
        ParseCodexQuotaSnapshot now headers = Some snapshot
        /\ CodexQuota.PlanType snapshot = "team"
        /\ CodexQuota.PrimaryUsedPercent snapshot = Some twelve_and_a_half
        /\ CodexQuota.CreditsHasCredits snapshot = Some false)
  /\ (forall (store : CodexQuota.Store) (authID : string)
             (snapshot : CodexQuota.CodexQuotaSnapshot),
         authID <> EmptyString ->
         CodexQuota.GetCodexQuotaSnapshot
           (CodexQuota.UpdateCodexQuotaSnapshot store authID (Some snapshot)) authID
         = Some snapshot).
Proof.
  split.
  - intros now headers Hplan Hused Hcredits.
    unfold CodexQuota.ParseCodexQuotaSnapshot. rewrite Hplan.
    change (Strs.TrimSpace "team") with "team".
    change (negb (String.eqb "team" "")) with true. cbv beta iota zeta. simpl orb.
    cbv iota. eexists. split; [reflexivity|]. simpl.
    unfold CodexQuota.parseFloat, CodexQuota.parseBool. rewrite Hused, Hcredits.
    repeat split; vm_compute; reflexivity.
  - intros store authID snapshot Hne.
    unfold CodexQuota.GetCodexQuotaSnapshot, CodexQuota.UpdateCodexQuotaSnapshot.
    rewrite (eqb_empty_false _ Hne). apply lookup_insert_eq.
Qed.

End CodexQuotaProperties.

(** C9 at the three headers alone, stored under [auth-1] in an empty
    registry. *)
Lemma codex_quota_witness :
  let headers := Scenario.headersOf
                   [("x-codex-plan-type", "team");
                    ("x-codex-primary-used-percent", "12.5");
                    ("x-codex-credits-has-credits", "False")] in
  (exists snapshot,
      CodexQuota.ParseCodexQuotaSnapshot (fun _ => None) 1 headers = Some snapshot
      /\ CodexQuota.PlanType snapshot = "team"
      /\ CodexQuota.PrimaryUsedPercent snapshot = Some twelve_and_a_half
      /\ CodexQuota.CreditsHasCredits snapshot = Some false
      /\ CodexQuota.GetCodexQuotaSnapshot
           (CodexQuota.UpdateCodexQuotaSnapshot ∅ "auth-1" (Some snapshot)) "auth-1"
         = Some snapshot).
Proof.
  intros headers.
  destruct (codex_quota_parse_and_store (fun _ => None)) as [Hparse Hstore].
  destruct (Hparse 1 headers) as (snapshot & H1 & H2 & H3 & H4);
    [reflexivity|reflexivity|reflexivity|].
  exists snapshot.
  split; [exact H1|]. split; [exact H2|]. split; [exact H3|]. split; [exact H4|].
  apply Hstore. discriminate.
Defined.

(** ** The sticky selector: garbage collection and the shape of [Pick] *)

Section StickyProperties.

Variable RoundRobinSelector : Type.
Variable gjsonGetString : string -> string -> string.
Variable rrPick :
  RoundRobinSelector -> string -> string -> Sticky.Options ->
  list (option Sticky.Auth) ->
  (option Sticky.Auth * option Sticky.Error) * RoundRobinSelector.
Variable getAvailableAuths :
  list (option Sticky.Auth) -> string -> string -> Z ->
  Sticky.Error + list (option Sticky.Auth).

Local Abbreviation Selector := (Sticky.StickySelector RoundRobinSelector).
Local Abbreviation bindingsOf := (Sticky.bindings RoundRobinSelector).
Local Abbreviation lastGCOf := (Sticky.lastGC RoundRobinSelector).
Local Abbreviation rrOf := (Sticky.rr RoundRobinSelector).
Local Abbreviation gcLocked := (Sticky.gcLocked RoundRobinSelector).
Local Abbreviation gcDue := (Sticky.gcDue RoundRobinSelector).
Local Abbreviation withBindings := (Sticky.withBindings RoundRobinSelector).
Local Abbreviation bindNew := (Sticky.bindNew RoundRobinSelector).
Local Abbreviation sessionKeyOf := (Sticky.extractStickySessionKey gjsonGetString).
Local Abbreviation Pick :=
  (Sticky.Pick RoundRobinSelector gjsonGetString rrPick getAvailableAuths).

(** The selector as lines 508 to 510 of [Pick] leave it. *)
Definition swept (s : Selector) (now : Z) : Selector :=
  if gcDue s now then gcLocked s now else s.

(** The key a request is bound under. *)
Definition bindingKeyOf (provider : string) (opts : Sticky.Options) : string :=
  String.append provider (String.append ":" (sessionKeyOf opts)).

(** The test of line 513. *)
Definition live (now : Z) (b : Sticky.stickyBinding) : bool :=
  negb (String.eqb (Sticky.authID b) "") && Time.Before now (Sticky.expiresAt b).

Lemma stale_false (now : Z) (v : Sticky.stickyBinding) :
  Sticky.stale now v = false
  <-> Sticky.authID v <> EmptyString /\ now <= Sticky.expiresAt v.
Proof.
  unfold Sticky.stale, Time.After.
  rewrite orb_false_iff, String.eqb_neq, Z.ltb_ge. reflexivity.
Qed.

Lemma live_true (now : Z) (b : Sticky.stickyBinding) :
  live now b = true
  <-> Sticky.authID b <> EmptyString /\ now < Sticky.expiresAt b.
Proof.
  unfold live, Time.Before.
  rewrite andb_true_iff, negb_true_iff, String.eqb_neq, Z.ltb_lt. reflexivity.
Qed.

Lemma live_not_stale (now : Z) (b : Sticky.stickyBinding) :
  live now b = true -> Sticky.stale now b = false.
Proof. rewrite live_true, stale_false. intros [H1 H2]. split; [exact H1 | lia]. Qed.

Lemma gcLocked_lookup (s : Selector) (now : Z) (k : string) (v : Sticky.stickyBinding) :
  bindingsOf (gcLocked s now) !! k = Some v
  <-> bindingsOf s !! k = Some v /\ Sticky.stale now v = false.
Proof.
  unfold Sticky.gcLocked.
  destruct (Z.of_nat (size (bindingsOf s)) =? 0) eqn:E; simpl.
  - apply Z.eqb_eq in E.
    assert (He : bindingsOf s = ∅) by (apply map_size_empty_inv; lia).
    rewrite He, lookup_empty. split; [discriminate | intros [H _]; discriminate].
  - unfold Sticky.gcBindings. rewrite map_lookup_filter_Some. reflexivity.
Qed.

Lemma swept_lookup (s : Selector) (now : Z) (k : string) (v : Sticky.stickyBinding) :
  bindingsOf (swept s now) !! k = Some v
  <-> bindingsOf s !! k = Some v /\ (gcDue s now = true -> Sticky.stale now v = false).
Proof.
  unfold swept. destruct (gcDue s now).
  - rewrite gcLocked_lookup. intuition.
  - intuition discriminate.
Qed.

Lemma swept_keeps (s : Selector) (now : Z) (k : string) (v : Sticky.stickyBinding) :
  bindingsOf s !! k = Some v -> Sticky.stale now v = false ->
  bindingsOf (swept s now) !! k = Some v.
Proof. intros H1 H2. apply swept_lookup. split; [exact H1 | intros _; exact H2]. Qed.

Lemma swept_rr (s : Selector) (now : Z) : rrOf (swept s now) = rrOf s.
Proof.
  unfold swept, Sticky.gcLocked.
  destruct (gcDue s now); [|reflexivity].
  destruct (Z.of_nat (size (bindingsOf s)) =? 0); reflexivity.
Qed.

(** [Pick] for a request that has a session key, once the candidates are
    filtered. *)
Lemma Pick_keyed (s : Selector) (now : Z) (provider model : string)
    (opts : Sticky.Options) (auths available : list (option Sticky.Auth)) :
  getAvailableAuths auths provider model now = inr available ->
  sessionKeyOf opts <> EmptyString ->
  Pick s now provider model opts auths =
  let bk := bindingKeyOf provider opts in
  let s1 := swept s now in
  match bindingsOf s1 !! bk with
  | Some existing =>
      if live now existing then
        match Sticky.findBound (Sticky.authID existing) available with
        | Some candidate =>
            ((Some candidate, None),
             withBindings s1
               (<[bk := Sticky.fresh (Sticky.ID candidate) now]> (bindingsOf s1)))
        | None => bindNew s1 provider (sessionKeyOf opts) bk now available
        end
      else bindNew (withBindings s1 (delete bk (bindingsOf s1)))
             provider (sessionKeyOf opts) bk now available
  | None => bindNew s1 provider (sessionKeyOf opts) bk now available
  end.
Proof.
  intros Hav Hkey. unfold Sticky.Pick. rewrite Hav.
  rewrite (eqb_empty_false _ Hkey). reflexivity.
Qed.

(** *** Byte-wise order on ids *)

Lemma compare_lt_trans (a b c : string) :
  String.compare a b = Lt -> String.compare b c = Lt -> String.compare a c = Lt.
Proof.
  revert b c. induction a as [|x a IH]; intros [|y b] [|z c]; simpl;
    try discriminate; try reflexivity.
  unfold Ascii.compare.
  destruct (N.compare_spec (N_of_ascii x) (N_of_ascii y)) as [E1|E1|E1];
    destruct (N.compare_spec (N_of_ascii y) (N_of_ascii z)) as [E2|E2|E2];
    try discriminate; intros H1 H2.
  - rewrite E1, E2, N.compare_refl. eapply IH; eassumption.
  - rewrite E1. apply N.compare_lt_iff in E2. rewrite E2. reflexivity.
  - rewrite <- E2. apply N.compare_lt_iff in E1. rewrite E1. reflexivity.
  - assert (E : (N_of_ascii x < N_of_ascii z)%N) by lia.
    apply N.compare_lt_iff in E. rewrite E. reflexivity.
Qed.

Lemma ltb_irrefl (a : string) : Strs.ltb a a = false.
Proof.
  unfold Strs.ltb. pose proof (String.compare_antisym a a) as H.
  destruct (String.compare a a); simpl in H; try discriminate; reflexivity.
Qed.

Lemma ltb_trans (a b c : string) :
  Strs.ltb a b = true -> Strs.ltb b c = true -> Strs.ltb a c = true.
Proof.
  unfold Strs.ltb. intros H1 H2.
  destruct (String.compare a b) eqn:E1; try discriminate.
  destruct (String.compare b c) eqn:E2; try discriminate.
  rewrite (compare_lt_trans a b c E1 E2). reflexivity.
Qed.

Lemma ltb_total (a b : string) :
  Strs.ltb a b = false -> Strs.ltb b a = false -> a = b.
Proof.
  unfold Strs.ltb. intros H1 H2. rewrite (String.compare_antisym b a) in H2.
  destruct (String.compare a b) eqn:E; simpl in *; try discriminate.
  apply String.compare_eq_iff. exact E.
Qed.

(** *** Rendezvous hashing *)

Definition scoreOf (sessionKey : string) (c : Sticky.Auth) : Z :=
  Sticky.rendezvousScore sessionKey (Sticky.ID c).

(** [b] is at least as good a choice as [c]: a higher score, or the same
    score and an id that is not after [c]'s. *)
Definition beats (sessionKey : string) (b c : Sticky.Auth) : Prop :=
  scoreOf sessionKey c < scoreOf sessionKey b
  \/ (scoreOf sessionKey c = scoreOf sessionKey b
      /\ Strs.ltb (Sticky.ID c) (Sticky.ID b) = false).

(** What the accumulator of the loop of [pickRendezvous] is, for the
    candidates [seen] so far. *)
Definition bestAmong (sessionKey : string) (seen : list (option Sticky.Auth))
    (acc : option (Sticky.Auth * Z)) : Prop :=
  match acc with
  | None => forall c, In (Some c) seen -> Sticky.ID c = EmptyString
  | Some (b, bestScore) =>
      bestScore = scoreOf sessionKey b
      /\ Sticky.ID b <> EmptyString
      /\ In (Some b) seen
      /\ forall c, In (Some c) seen -> Sticky.ID c <> EmptyString ->
                   beats sessionKey b c
  end.

Lemma beats_refl (sessionKey : string) (b : Sticky.Auth) : beats sessionKey b b.
Proof. right. split; [reflexivity | apply ltb_irrefl]. Qed.

Lemma rendezvousStep_best (sessionKey : string) (seen : list (option Sticky.Auth))
    (acc : option (Sticky.Auth * Z)) (candidate : option Sticky.Auth) :
  bestAmong sessionKey seen acc ->
  bestAmong sessionKey (seen ++ [candidate])
    (Sticky.rendezvousStep sessionKey acc candidate).
Proof.
  intros Hacc. destruct candidate as [c|]; simpl.
  - destruct (String.eqb (Sticky.ID c) "") eqn:Ec.
    + apply String.eqb_eq in Ec.
      destruct acc as [[b bs]|]; simpl in *.
      * destruct Hacc as (Hs & Hn & Hin & Hall).
        split; [exact Hs|]. split; [exact Hn|].
        split; [apply in_or_app; left; exact Hin|].
        intros c' Hc' Hne. apply in_app_or in Hc'. destruct Hc' as [Hc'|[Hc'|[]]].
        -- apply Hall; assumption.
        -- injection Hc' as <-. contradiction.
      * intros c' Hc'. apply in_app_or in Hc'. destruct Hc' as [Hc'|[Hc'|[]]].
        -- apply Hacc; assumption.
        -- injection Hc' as <-. exact Ec.
    + apply String.eqb_neq in Ec.
      destruct acc as [[b bs]|]; simpl in *.
      * destruct Hacc as (Hs & Hn & Hin & Hall). subst bs.
        fold (scoreOf sessionKey c).
        destruct ((scoreOf sessionKey b <? scoreOf sessionKey c)
                  || ((scoreOf sessionKey c =? scoreOf sessionKey b)
                      && Strs.ltb (Sticky.ID c) (Sticky.ID b))) eqn:Hcmp; simpl.
        -- split; [reflexivity|]. split; [exact Ec|].
           split; [apply in_or_app; right; left; reflexivity|].
           intros c' Hc' Hne. apply in_app_or in Hc'. destruct Hc' as [Hc'|[Hc'|[]]].
           ++ specialize (Hall c' Hc' Hne). unfold beats in *.
              apply orb_true_iff in Hcmp. destruct Hcmp as [Hlt|Heq].
              ** apply Z.ltb_lt in Hlt. left. destruct Hall as [H|[H _]]; lia.
              ** apply andb_true_iff in Heq. destruct Heq as [Heq Hid].
                 apply Z.eqb_eq in Heq. destruct Hall as [H|[H Hid']].
                 --- left. lia.
                 --- right. split; [lia|].
                     destruct (Strs.ltb (Sticky.ID c') (Sticky.ID c)) eqn:E;
                       [|reflexivity].
                     rewrite (ltb_trans _ _ _ E Hid) in Hid'. discriminate.
           ++ injection Hc' as <-. apply beats_refl.
        -- split; [reflexivity|]. split; [exact Hn|].
           split; [apply in_or_app; left; exact Hin|].
           intros c' Hc' Hne. apply in_app_or in Hc'. destruct Hc' as [Hc'|[Hc'|[]]].
           ++ apply Hall; assumption.
           ++ injection Hc' as <-. unfold beats.
              apply orb_false_iff in Hcmp. destruct Hcmp as [Hlt Heq].
              apply Z.ltb_ge in Hlt. apply andb_false_iff in Heq.
              destruct Heq as [Heq|Hid].
              ** apply Z.eqb_neq in Heq. left. lia.
              ** destruct (Z.eq_dec (scoreOf sessionKey c) (scoreOf sessionKey b)).
                 --- right. split; assumption.
                 --- left. lia.
      * split; [reflexivity|]. split; [exact Ec|].
        split; [apply in_or_app; right; left; reflexivity|].
        intros c' Hc' Hne. apply in_app_or in Hc'. destruct Hc' as [Hc'|[Hc'|[]]].
        -- apply Hacc in Hc'. contradiction.
        -- injection Hc' as <-. apply beats_refl.
  - destruct acc as [[b bs]|]; simpl in *.
    + destruct Hacc as (Hs & Hn & Hin & Hall).
      split; [exact Hs|]. split; [exact Hn|].
      split; [apply in_or_app; left; exact Hin|].
      intros c' Hc' Hne. apply in_app_or in Hc'. destruct Hc' as [Hc'|[Hc'|[]]].
      * apply Hall; assumption.
      * discriminate.
    + intros c' Hc'. apply in_app_or in Hc'. destruct Hc' as [Hc'|[Hc'|[]]].
      * apply Hacc; assumption.
      * discriminate.
Qed.

Lemma rendezvous_fold_best (sessionKey : string) (l seen : list (option Sticky.Auth))
    (acc : option (Sticky.Auth * Z)) :
  bestAmong sessionKey seen acc ->
  bestAmong sessionKey (seen ++ l)
    (fold_left (Sticky.rendezvousStep sessionKey) l acc).
Proof.
  revert seen acc. induction l as [|c l IH]; intros seen acc Hacc; simpl.
  - rewrite app_nil_r. exact Hacc.
  - replace (seen ++ c :: l)%list with ((seen ++ [c]) ++ l)%list
      by (rewrite <- app_assoc; reflexivity).
    apply IH. apply rendezvousStep_best. exact Hacc.
Qed.

Lemma pickRendezvous_best (sessionKey : string) (l : list (option Sticky.Auth)) :
  sessionKey <> EmptyString ->
  match Sticky.pickRendezvous sessionKey l with
  | None => forall c, In (Some c) l -> Sticky.ID c = EmptyString
  | Some b =>
      Sticky.ID b <> EmptyString /\ In (Some b) l
      /\ forall c, In (Some c) l -> Sticky.ID c <> EmptyString -> beats sessionKey b c
  end.
Proof.
  intros Hkey. unfold Sticky.pickRendezvous.
  rewrite (eqb_empty_false _ Hkey). simpl orb.
  destruct (Z.of_nat (length l) =? 0) eqn:El.
  - destruct l; [|simpl in El; discriminate].
    intros c [].
  - pose proof (rendezvous_fold_best sessionKey l [] None) as H.
    simpl in H. specialize (H (fun c (F : False) => match F with end)).
    destruct (fold_left (Sticky.rendezvousStep sessionKey) l None) as [[b bs]|];
      simpl in *.
    + destruct H as (_ & Hn & Hin & Hall). auto.
    + exact H.
Qed.

(** [pickRendezvous] returns a candidate that is not nil, has an id and
    is in the slice, and no candidate with an id has a higher score, or
    the same score and a smaller id; it returns nil exactly when the
    session key is empty or no candidate has an id.  The score is read
    from the first eight bytes of the SHA-256 of the key, a zero byte and
    the id. *)
Theorem rendezvous_picks_highest_score (sessionKey : string)
    (l : list (option Sticky.Auth)) :
  sessionKey <> EmptyString ->
  (forall b, Sticky.pickRendezvous sessionKey l = Some b ->
     Sticky.ID b <> EmptyString /\ In (Some b) l
     /\ forall c, In (Some c) l -> Sticky.ID c <> EmptyString ->
          Sticky.rendezvousScore sessionKey (Sticky.ID c)
            < Sticky.rendezvousScore sessionKey (Sticky.ID b)
          \/ (Sticky.rendezvousScore sessionKey (Sticky.ID c)
                = Sticky.rendezvousScore sessionKey (Sticky.ID b)
              /\ Strs.ltb (Sticky.ID c) (Sticky.ID b) = false))
  /\ (Sticky.pickRendezvous sessionKey l = None
      <-> forall c, In (Some c) l -> Sticky.ID c = EmptyString)
  /\ (forall id, Sticky.rendezvousScore sessionKey id
        = SHA256.Uint64
            (firstn 8 (SHA256.Sum256
                         (Strs.bytes sessionKey ++ 0 :: Strs.bytes id)%list)))
  /\ Sticky.pickRendezvous EmptyString l = None.
Proof.
  intros Hkey. pose proof (pickRendezvous_best sessionKey l Hkey) as H.
  split; [|split; [|split]].
  - intros b Hb. rewrite Hb in H. exact H.
  - destruct (Sticky.pickRendezvous sessionKey l) as [b|].
    + destruct H as (Hn & Hin & _). split; [discriminate|].
      intros Hall. elim Hn. apply Hall. exact Hin.
    + split; [intros _; exact H | reflexivity].
  - intros id. unfold Sticky.rendezvousScore, Sticky.hashSum, Sticky.hashWrite,
      Sticky.hashNew. simpl app. rewrite <- app_assoc. reflexivity.
  - reflexivity.
Qed.

(** The id [pickRendezvous] chooses depends on the session key and on the
    set of ids of the candidates only: not on their order, on repeated or
    nil entries, or on the rest of the records. *)
Theorem rendezvous_depends_on_ids_only (sessionKey : string)
    (l1 l2 : list (option Sticky.Auth)) :
  (forall id, id <> EmptyString ->
     (exists c, In (Some c) l1 /\ Sticky.ID c = id)
     <-> (exists c, In (Some c) l2 /\ Sticky.ID c = id)) ->
  option_map Sticky.ID (Sticky.pickRendezvous sessionKey l1)
  = option_map Sticky.ID (Sticky.pickRendezvous sessionKey l2).
Proof.
  intros Hids. destruct (String.eqb sessionKey "") eqn:Ek.
  - unfold Sticky.pickRendezvous. rewrite Ek. reflexivity.
  - apply String.eqb_neq in Ek.
    pose proof (pickRendezvous_best sessionKey l1 Ek) as H1.
    pose proof (pickRendezvous_best sessionKey l2 Ek) as H2.
    destruct (Sticky.pickRendezvous sessionKey l1) as [b1|];
      destruct (Sticky.pickRendezvous sessionKey l2) as [b2|]; simpl.
    + destruct H1 as (Hn1 & Hin1 & Hall1). destruct H2 as (Hn2 & Hin2 & Hall2).
      destruct (proj1 (Hids _ Hn1) (ex_intro _ b1 (conj Hin1 eq_refl)))
        as (c2 & Hc2 & Eid2).
      destruct (proj2 (Hids _ Hn2) (ex_intro _ b2 (conj Hin2 eq_refl)))
        as (c1 & Hc1 & Eid1).
      assert (Hb1 : beats sessionKey b1 c1) by (apply Hall1; [|rewrite Eid1]; assumption).
      assert (Hb2 : beats sessionKey b2 c2) by (apply Hall2; [|rewrite Eid2]; assumption).
      unfold beats, scoreOf in Hb1, Hb2. rewrite Eid1 in Hb1. rewrite Eid2 in Hb2.
      f_equal. apply ltb_total.
      * destruct Hb2 as [Hb2|[_ Hb2]]; [|exact Hb2].
        destruct Hb1 as [Hb1|[Hb1 _]]; lia.
      * destruct Hb1 as [Hb1|[_ Hb1]]; [|exact Hb1].
        destruct Hb2 as [Hb2|[Hb2 _]]; lia.
    + destruct H1 as (Hn1 & Hin1 & _).
      destruct (proj1 (Hids _ Hn1) (ex_intro _ b1 (conj Hin1 eq_refl)))
        as (c2 & Hc2 & Eid2).
      rewrite (H2 c2 Hc2) in Eid2. congruence.
    + destruct H2 as (Hn2 & Hin2 & _).
      destruct (proj2 (Hids _ Hn2) (ex_intro _ b2 (conj Hin2 eq_refl)))
        as (c1 & Hc1 & Eid1).
      rewrite (H1 c1 Hc1) in Eid1. congruence.
    + reflexivity.
Qed.

(** *** The minimum loops of [Pick] *)

Lemma lowerOf_le (m p : Z) : Sticky.lowerOf m p <= m /\ Sticky.lowerOf m p <= p.
Proof. unfold Sticky.lowerOf. destruct (p <? m) eqn:E; lia. Qed.

Lemma lowerOf_cases (m p : Z) : Sticky.lowerOf m p = m \/ Sticky.lowerOf m p = p.
Proof. unfold Sticky.lowerOf. destruct (p <? m); auto. Qed.

Lemma lowest_le {X : Type} (g : X -> bool) (f : X -> Z) (l : list X) (init : Z) :
  let r := fold_left (fun m c => if g c then Sticky.lowerOf m (f c) else m) l init in
  r <= init /\ forall c, In c l -> g c = true -> r <= f c.
Proof.
  revert init. induction l as [|a l IH]; intros init; simpl.
  - split; [lia | intros c []].
  - pose proof (lowerOf_le init (f a)) as [L1 L2].
    destruct (g a) eqn:Eg.
    + destruct (IH (Sticky.lowerOf init (f a))) as [H1 H2].
      split; [lia|]. intros c [<-|Hc] Hg; [lia | apply H2; assumption].
    + destruct (IH init) as [H1 H2].
      split; [exact H1|]. intros c [<-|Hc] Hg; [congruence | apply H2; assumption].
Qed.

Lemma lowest_attained {X : Type} (g : X -> bool) (f : X -> Z) (l : list X) (init : Z) :
  let r := fold_left (fun m c => if g c then Sticky.lowerOf m (f c) else m) l init in
  r = init \/ exists c, In c l /\ g c = true /\ r = f c.
Proof.
  revert init. induction l as [|a l IH]; intros init; simpl.
  - left. reflexivity.
  - destruct (g a) eqn:Eg.
    + destruct (IH (Sticky.lowerOf init (f a))) as [H|(c & Hc & Hg & H)].
      * destruct (lowerOf_cases init (f a)) as [E|E].
        -- left. rewrite H. exact E.
        -- right. exists a. split; [left; reflexivity|].
           split; [exact Eg|]. rewrite H. exact E.
      * right. exists c. split; [right; exact Hc|]. split; assumption.
    + destruct (IH init) as [H|(c & Hc & Hg & H)].
      * left. exact H.
      * right. exists c. split; [right; exact Hc|]. split; assumption.
Qed.

Lemma minPriorityOf_le (available : list (option Sticky.Auth)) (c : option Sticky.Auth) :
  In c available -> Sticky.minPriorityOf available <= Sticky.authPriority c.
Proof.
  intros Hc.
  apply (proj2 (lowest_le (fun _ => true) Sticky.authPriority available Strconv.maxInt));
    [exact Hc | reflexivity].
Qed.

Lemma priorityFiltered_in (available : list (option Sticky.Auth)) (c : option Sticky.Auth) :
  In c (Sticky.priorityFiltered available)
  <-> In c available /\ Sticky.authPriority c = Sticky.minPriorityOf available.
Proof.
  unfold Sticky.priorityFiltered. rewrite filter_In, Z.eqb_eq. reflexivity.
Qed.

Lemma loadFiltered_in (load : gmap string Z) (filtered : list (option Sticky.Auth))
    (c : option Sticky.Auth) :
  In c (Sticky.loadFiltered load filtered)
  <-> In c filtered /\ Sticky.named c = true
      /\ Sticky.candidateLoad load c = Sticky.minLoadOf load filtered.
Proof.
  unfold Sticky.loadFiltered. rewrite filter_In, andb_true_iff, Z.eqb_eq. reflexivity.
Qed.

Lemma minLoadOf_le (load : gmap string Z) (filtered : list (option Sticky.Auth))
    (c : option Sticky.Auth) :
  In c filtered -> Sticky.named c = true ->
  Sticky.minLoadOf load filtered <= Sticky.candidateLoad load c.
Proof.
  intros Hc Hn.
  apply (proj2 (lowest_le Sticky.named (Sticky.candidateLoad load) filtered Strconv.maxInt));
    assumption.
Qed.

Lemma named_Some (c : Sticky.Auth) :
  Sticky.named (Some c) = true <-> Sticky.ID c <> EmptyString.
Proof. simpl. rewrite negb_true_iff, String.eqb_neq. reflexivity. Qed.

(** What lines 530 to 576 select: a candidate with an id, of the least
    priority value among the candidates, and of the least load among
    those that have an id and that priority. *)
Lemma selectNew_Some (provider sessionKey : string) (now : Z)
    (m : gmap string Sticky.stickyBinding) (available : list (option Sticky.Auth))
    (c : Sticky.Auth) :
  sessionKey <> EmptyString ->
  Sticky.selectNew provider sessionKey now m available = Some c ->
  Sticky.ID c <> EmptyString /\ In (Some c) available
  /\ (forall c', In c' available ->
        Sticky.authPriority (Some c) <= Sticky.authPriority c')
  /\ (forall c', In (Some c') available -> Sticky.ID c' <> EmptyString ->
        Sticky.authPriority (Some c') = Sticky.authPriority (Some c) ->
        Sticky.loadOf (Sticky.loadByAuthID provider now m) (Sticky.ID c)
        <= Sticky.loadOf (Sticky.loadByAuthID provider now m) (Sticky.ID c')).
Proof.
  intros Hkey Hsel. unfold Sticky.selectNew in Hsel.
  pose proof (pickRendezvous_best sessionKey
                (Sticky.loadFiltered (Sticky.loadByAuthID provider now m)
                   (Sticky.priorityFiltered available)) Hkey) as H.
  rewrite Hsel in H. destruct H as (Hn & Hin & _).
  apply loadFiltered_in in Hin. destruct Hin as (Hin & _ & Hload).
  apply priorityFiltered_in in Hin. destruct Hin as (Hin & Hprio).
  split; [exact Hn|]. split; [exact Hin|]. split.
  - intros c' Hc'. rewrite Hprio. apply minPriorityOf_le. exact Hc'.
  - intros c' Hc' Hn' Hp.
    change (Sticky.candidateLoad (Sticky.loadByAuthID provider now m) (Some c)
            <= Sticky.candidateLoad (Sticky.loadByAuthID provider now m) (Some c')).
    rewrite Hload. apply minLoadOf_le.
    + apply priorityFiltered_in. split; [exact Hc'|]. congruence.
    + apply named_Some. exact Hn'.
Qed.

(** *** The two ways through [Pick] *)

(** The candidate the loop of lines 514 to 524 returns: the first one
    that has the id of the request's binding, when that binding is in
    force. *)
Definition boundHit (s : Selector) (now : Z) (bk : string)
    (available : list (option Sticky.Auth)) : option Sticky.Auth :=
  match bindingsOf s !! bk with
  | Some b => if live now b then Sticky.findBound (Sticky.authID b) available else None
  | None => None
  end.

(** The bindings in force when lines 530 to 576 select for a request:
    what garbage collection left, less the request's own binding if it
    is no longer in force. *)
Definition heldBindings (s : Selector) (now : Z) (bk : string)
  : gmap string Sticky.stickyBinding :=
  let m := bindingsOf (swept s now) in
  match m !! bk with
  | Some b => if live now b then m else delete bk m
  | None => m
  end.

Lemma withBindings_same (s : Selector) : withBindings s (bindingsOf s) = s.
Proof. destruct s. reflexivity. Qed.

Lemma swept_bound (s : Selector) (now : Z) (bk : string) :
  match bindingsOf (swept s now) !! bk with
  | Some b => bindingsOf s !! bk = Some b
  | None => forall b, bindingsOf s !! bk = Some b -> live now b = false
  end.
Proof.
  destruct (bindingsOf (swept s now) !! bk) as [b|] eqn:E.
  - apply swept_lookup in E. tauto.
  - intros b Hb. destruct (live now b) eqn:El; [|reflexivity].
    rewrite (swept_keeps s now bk b Hb (live_not_stale _ _ El)) in E. discriminate.
Qed.

Lemma Pick_outcome (s : Selector) (now : Z) (provider model : string)
    (opts : Sticky.Options) (auths available : list (option Sticky.Auth)) :
  getAvailableAuths auths provider model now = inr available ->
  sessionKeyOf opts <> EmptyString ->
  Pick s now provider model opts auths =
  let bk := bindingKeyOf provider opts in
  match boundHit s now bk available with
  | Some c =>
      ((Some c, None),
       withBindings (swept s now)
         (<[bk := Sticky.fresh (Sticky.ID c) now]> (bindingsOf (swept s now))))
  | None =>
      bindNew (withBindings (swept s now) (heldBindings s now bk))
        provider (sessionKeyOf opts) bk now available
  end.
Proof.
  intros Hav Hkey. rewrite (Pick_keyed _ _ _ _ _ _ _ Hav Hkey). cbv zeta.
  unfold boundHit, heldBindings. cbv zeta.
  pose proof (swept_bound s now (bindingKeyOf provider opts)) as Hb.
  destruct (bindingsOf (swept s now) !! bindingKeyOf provider opts) as [b|].
  - rewrite Hb. destruct (live now b).
    + destruct (Sticky.findBound (Sticky.authID b) available); [reflexivity|].
      rewrite withBindings_same. reflexivity.
    + reflexivity.
  - rewrite withBindings_same.
    destruct (bindingsOf s !! bindingKeyOf provider opts) as [b|]; [|reflexivity].
    rewrite (Hb b eq_refl). reflexivity.
Qed.

Lemma heldBindings_lookup (s : Selector) (now : Z) (bk k : string)
    (v : Sticky.stickyBinding) :
  heldBindings s now bk !! k = Some v
  <-> bindingsOf s !! k = Some v
      /\ (gcDue s now = true -> Sticky.stale now v = false)
      /\ (k = bk -> live now v = true).
Proof.
  pose proof (swept_lookup s now k v) as Hs.
  cut (heldBindings s now bk !! k = Some v
       <-> bindingsOf (swept s now) !! k = Some v /\ (k = bk -> live now v = true));
    [tauto|].
  clear Hs. unfold heldBindings. cbv zeta.
  destruct (bindingsOf (swept s now) !! bk) as [b|] eqn:E.
  - destruct (live now b) eqn:El.
    + split; [|tauto]. intros H. split; [exact H|]. intros ->. congruence.
    + destruct (decide (k = bk)) as [->|Hne].
      * rewrite lookup_delete_eq. split; [discriminate|].
        intros [H1 H2]. specialize (H2 eq_refl). congruence.
      * rewrite lookup_delete_ne by congruence. tauto.
  - split; [|tauto]. intros H. split; [exact H|]. intros ->. congruence.
Qed.

Lemma findBound_Some (id : string) (l : list (option Sticky.Auth)) (c : Sticky.Auth) :
  Sticky.findBound id l = Some c -> Sticky.ID c = id /\ In (Some c) l.
Proof.
  unfold Sticky.findBound. intros H.
  destruct (find _ l) as [[c'|]|] eqn:E; try discriminate.
  injection H as ->. apply find_some in E. destruct E as [Hin Heq].
  apply String.eqb_eq in Heq. split; assumption.
Qed.

Lemma findBound_exists (id : string) (l : list (option Sticky.Auth)) (c0 : Sticky.Auth) :
  In (Some c0) l -> Sticky.ID c0 = id -> exists c, Sticky.findBound id l = Some c.
Proof.
  intros Hin Hid. unfold Sticky.findBound.
  destruct (find _ l) as [[c'|]|] eqn:E.
  - exists c'. reflexivity.
  - apply find_some in E. destruct E as [_ E]. discriminate.
  - exfalso. pose proof (find_none _ _ E (Some c0) Hin) as H. simpl in H.
    rewrite Hid, String.eqb_refl in H. discriminate.
Qed.

Lemma boundHit_Some (s : Selector) (now : Z) (bk : string)
    (available : list (option Sticky.Auth)) (c : Sticky.Auth) :
  boundHit s now bk available = Some c ->
  exists b, bindingsOf s !! bk = Some b /\ live now b = true
            /\ Sticky.findBound (Sticky.authID b) available = Some c.
Proof.
  unfold boundHit. intros H.
  destruct (bindingsOf s !! bk) as [b|]; [|discriminate].
  destruct (live now b) eqn:El; [|discriminate].
  exists b. auto.
Qed.

(** The three outcomes of [Pick] for a request with a session key: the
    bound record, a newly selected one, or no record. *)
Lemma Pick_cases (s s' : Selector) (now : Z) (provider model : string)
    (opts : Sticky.Options) (auths available : list (option Sticky.Auth))
    (res : option Sticky.Auth * option Sticky.Error) :
  getAvailableAuths auths provider model now = inr available ->
  sessionKeyOf opts <> EmptyString ->
  Pick s now provider model opts auths = (res, s') ->
  let bk := bindingKeyOf provider opts in
  let held := heldBindings s now bk in
  (exists c, boundHit s now bk available = Some c /\ res = (Some c, None)
     /\ s' = withBindings (swept s now)
               (<[bk := Sticky.fresh (Sticky.ID c) now]> (bindingsOf (swept s now))))
  \/ (exists c, boundHit s now bk available = None
        /\ Sticky.selectNew provider (sessionKeyOf opts) now held available = Some c
        /\ res = (Some c, None)
        /\ s' = withBindings (swept s now)
                  (<[bk := Sticky.fresh (Sticky.ID c) now]> held))
  \/ (boundHit s now bk available = None
      /\ Sticky.selectNew provider (sessionKeyOf opts) now held available = None
      /\ res = (None, Some Sticky.notFound)
      /\ s' = withBindings (swept s now) held).
Proof.
  intros Hav Hkey HP bk held. rewrite (Pick_outcome _ _ _ _ _ _ _ Hav Hkey) in HP.
  cbv zeta in HP. fold bk in HP. fold held in HP.
  destruct (boundHit s now bk available) as [c|].
  - left. exists c. injection HP as <- <-. auto.
  - right. unfold Sticky.bindNew in HP. simpl in HP.
    destruct (Sticky.selectNew provider (sessionKeyOf opts) now held available) as [c|].
    + left. exists c. injection HP as <- <-. auto.
    + right. injection HP as <- <-. auto.
Qed.

Lemma gcDue_true (s : Selector) (now : Z) :
  gcDue s now = true
  <-> bindingsOf s <> ∅
      /\ (Sticky.stickyGCMinEntries <= Z.of_nat (size (bindingsOf s))
          \/ lastGCOf s = 0
          \/ Sticky.stickyGCInterval <= now - lastGCOf s).
Proof.
  unfold Sticky.gcDue. cbv zeta.
  rewrite andb_true_iff, !orb_true_iff, Z.ltb_lt, !Z.leb_le.
  unfold Time.IsZero. rewrite Z.eqb_eq.
  rewrite <- map_size_non_empty_iff.
  assert (Hsub : Sticky.stickyGCInterval <= Time.Sub now (lastGCOf s)
                 <-> Sticky.stickyGCInterval <= now - lastGCOf s).
  { unfold Time.Sub, Sticky.stickyGCInterval, Time.Minute, Time.Second,
      Strconv.minInt, Strconv.maxInt. lia. }
  rewrite Hsub. split; intros [H1 H2]; (split; [lia | tauto]).
Qed.

(** [gcLocked] removes exactly the bindings whose id is empty or whose
    expiry is before [now], keeps every other binding as it is
    (a binding that expires at [now] itself stays), and records [now] as
    the time of the collection. *)
Theorem gc_removes_exactly_the_expired (s : Selector) (now : Z) :
  (forall k v,
      bindingsOf (gcLocked s now) !! k = Some v
      <-> bindingsOf s !! k = Some v
          /\ Sticky.authID v <> EmptyString /\ now <= Sticky.expiresAt v)
  /\ lastGCOf (gcLocked s now) = now
  /\ rrOf (gcLocked s now) = rrOf s.
Proof.
  split; [|split].
  - intros k v. rewrite gcLocked_lookup, stale_false. reflexivity.
  - unfold Sticky.gcLocked. destruct (Z.of_nat (size (bindingsOf s)) =? 0); reflexivity.
  - unfold Sticky.gcLocked. destruct (Z.of_nat (size (bindingsOf s)) =? 0); reflexivity.
Qed.

Lemma swept_lastGC (s : Selector) (now : Z) :
  lastGCOf (swept s now) = if gcDue s now then now else lastGCOf s.
Proof.
  unfold swept, Sticky.gcLocked. destruct (gcDue s now); [|reflexivity].
  destruct (Z.of_nat (size (bindingsOf s)) =? 0); reflexivity.
Qed.

(** A [Pick] for a request with a session key writes the binding of that
    request only.  Every other binding is as it was, unless garbage
    collection is due, which drops those with an empty id or an expiry
    before [now]; it is due when there are bindings and there are 1024 of
    them or more, or no collection was recorded, or the last one is ten
    minutes old. *)
Theorem Pick_touches_only_its_own_binding (s s' : Selector) (now : Z)
    (provider model : string) (opts : Sticky.Options)
    (auths available : list (option Sticky.Auth))
    (res : option Sticky.Auth * option Sticky.Error) :
  getAvailableAuths auths provider model now = inr available ->
  sessionKeyOf opts <> EmptyString ->
  Pick s now provider model opts auths = (res, s') ->
  (forall k v, k <> bindingKeyOf provider opts ->
      (bindingsOf s' !! k = Some v
       <-> bindingsOf s !! k = Some v
           /\ (gcDue s now = true ->
               Sticky.authID v <> EmptyString /\ now <= Sticky.expiresAt v)))
  /\ lastGCOf s' = (if gcDue s now then now else lastGCOf s)
  /\ rrOf s' = rrOf s
  /\ (gcDue s now = true
      <-> bindingsOf s <> ∅
          /\ (Sticky.stickyGCMinEntries <= Z.of_nat (size (bindingsOf s))
              \/ lastGCOf s = 0
              \/ Sticky.stickyGCInterval <= now - lastGCOf s)).
Proof.
  intros Hav Hkey HP.
  assert (Hm : exists m, s' = withBindings (swept s now) m
               /\ forall k, k <> bindingKeyOf provider opts ->
                    m !! k = bindingsOf (swept s now) !! k).
  { assert (Hheld : forall k, k <> bindingKeyOf provider opts ->
              heldBindings s now (bindingKeyOf provider opts) !! k
              = bindingsOf (swept s now) !! k).
    { intros k Hk. apply option_eq. intros v.
      rewrite heldBindings_lookup, swept_lookup. tauto. }
    destruct (Pick_cases _ _ _ _ _ _ _ _ _ Hav Hkey HP)
      as [(c & _ & _ & ->)|[(c & _ & _ & _ & ->)|(_ & _ & _ & ->)]].
    - eexists. split; [reflexivity|]. intros k Hk.
      rewrite lookup_insert_ne by congruence. reflexivity.
    - eexists. split; [reflexivity|]. intros k Hk.
      rewrite lookup_insert_ne by congruence. apply Hheld. exact Hk.
    - eexists. split; [reflexivity|]. exact Hheld. }
  destruct Hm as (m & -> & Hm). simpl.
  split; [|split; [|split]].
  - intros k v Hk. rewrite (Hm k Hk), swept_lookup.
    split; intros [H1 H2]; (split; [exact H1|]); intros Hd; apply stale_false; auto.
  - apply swept_lastGC.
  - apply swept_rr.
  - apply gcDue_true.
Qed.

(** A request whose binding is in force ([now] before its expiry) and
    whose bound id is among the candidates is given the first candidate
    with that id, and the binding is written anew: it expires an hour
    after [now] and was last used at [now]. *)
Theorem bound_session_is_served_and_refreshed (s : Selector) (now : Z)
    (provider model : string) (opts : Sticky.Options)
    (auths available : list (option Sticky.Auth))
    (b : Sticky.stickyBinding) (c0 : Sticky.Auth) :
  getAvailableAuths auths provider model now = inr available ->
  sessionKeyOf opts <> EmptyString ->
  bindingsOf s !! bindingKeyOf provider opts = Some b ->
  Sticky.authID b <> EmptyString ->
  now < Sticky.expiresAt b ->
  In (Some c0) available ->
  Sticky.ID c0 = Sticky.authID b ->
  exists c s',
    Pick s now provider model opts auths = ((Some c, None), s')
    /\ Sticky.findBound (Sticky.authID b) available = Some c
    /\ Sticky.ID c = Sticky.authID b
    /\ In (Some c) available
    /\ bindingsOf s' !! bindingKeyOf provider opts
       = Some {| Sticky.authID := Sticky.authID b;
                 Sticky.expiresAt := now + 3600 * 1000000000;
                 Sticky.lastUsedAt := now |}.
Proof.
  intros Hav Hkey Hb Hid Hexp Hin Hc0.
  destruct (findBound_exists _ _ _ Hin Hc0) as [c Hc].
  destruct (findBound_Some _ _ _ Hc) as [Eid Hcin].
  rewrite (Pick_outcome _ _ _ _ _ _ _ Hav Hkey). cbv zeta.
  unfold boundHit. rewrite Hb.
  rewrite (proj2 (live_true now b) (conj Hid Hexp)), Hc.
  eexists. eexists. split; [reflexivity|].
  split; [reflexivity|]. split; [exact Eid|]. split; [exact Hcin|].
  simpl. rewrite lookup_insert_eq. rewrite Eid. reflexivity.
Qed.

Lemma Pick_Some (s s' : Selector) (now : Z)
    (provider model : string) (opts : Sticky.Options)
    (auths available : list (option Sticky.Auth))
    (c : Sticky.Auth) (e : option Sticky.Error) :
  getAvailableAuths auths provider model now = inr available ->
  sessionKeyOf opts <> EmptyString ->
  Pick s now provider model opts auths = ((Some c, e), s') ->
  e = None
  /\ In (Some c) available
  /\ Sticky.ID c <> EmptyString
  /\ bindingsOf s' !! bindingKeyOf provider opts
     = Some {| Sticky.authID := Sticky.ID c;
               Sticky.expiresAt := now + 3600 * 1000000000;
               Sticky.lastUsedAt := now |}.
Proof.
  intros Hav Hkey HP.
  destruct (Pick_cases _ _ _ _ _ _ _ _ _ Hav Hkey HP)
    as [(c' & Hhit & Hres & ->)|[(c' & _ & Hsel & Hres & ->)|(_ & _ & Hres & _)]];
    [| |discriminate].
  - injection Hres as <- <-.
    destruct (boundHit_Some _ _ _ _ _ Hhit) as (b & _ & Hl & Hf).
    destruct (findBound_Some _ _ _ Hf) as [Eid Hin].
    apply live_true in Hl. destruct Hl as [Hne _].
    split; [reflexivity|]. split; [exact Hin|]. split; [congruence|].
    simpl. rewrite lookup_insert_eq. reflexivity.
  - injection Hres as <- <-.
    destruct (selectNew_Some _ _ _ _ _ _ Hkey Hsel) as (Hne & Hin & _).
    split; [reflexivity|]. split; [exact Hin|]. split; [exact Hne|].
    simpl. rewrite lookup_insert_eq. reflexivity.
Qed.

(** Whenever [Pick] returns a record for a request with a session key, it
    returns no error, the record is one of the candidates and has an id,
    and the request's binding holds that id, expires an hour after [now]
    and was last used at [now]. *)
Theorem picked_record_is_bound (s s' : Selector) (now : Z)
    (provider model : string) (opts : Sticky.Options)
    (auths available : list (option Sticky.Auth))
    (c : Sticky.Auth) (e : option Sticky.Error) :
  getAvailableAuths auths provider model now = inr available ->
  sessionKeyOf opts <> EmptyString ->
  Pick s now provider model opts auths = ((Some c, e), s') ->
  e = None
  /\ In (Some c) available
  /\ Sticky.ID c <> EmptyString
  /\ bindingsOf s' !! bindingKeyOf provider opts
     = Some {| Sticky.authID := Sticky.ID c;
               Sticky.expiresAt := now + 3600 * 1000000000;
               Sticky.lastUsedAt := now |}.
Proof. apply Pick_Some. Qed.

(** A [Pick] that returns no record creates and refreshes no binding:
    every binding there is afterwards was there before, unchanged.  The
    error is the one [getAvailableAuths] returned, the selector being
    left as it was, or, for a request with a session key, the error
    auth_not_found. *)
Theorem failed_Pick_leaves_no_binding (s s' : Selector) (now : Z)
    (provider model : string) (opts : Sticky.Options)
    (auths : list (option Sticky.Auth)) (e : option Sticky.Error) :
  Pick s now provider model opts auths = ((None, e), s') ->
  (forall k v, bindingsOf s' !! k = Some v -> bindingsOf s !! k = Some v)
  /\ (forall err, getAvailableAuths auths provider model now = inl err ->
        e = Some err /\ s' = s)
  /\ (forall available, getAvailableAuths auths provider model now = inr available ->
        sessionKeyOf opts <> EmptyString ->
        e = Some {| Sticky.Code := "auth_not_found";
                    Sticky.Message := "no auth available" |}).
Proof.
  intros HP.
  destruct (getAvailableAuths auths provider model now) as [err|available] eqn:Hav.
  - unfold Sticky.Pick in HP. rewrite Hav in HP. injection HP as <- <-.
    split; [auto|]. split; [|discriminate].
    intros err' E. injection E as <-. auto.
  - destruct (String.eqb (sessionKeyOf opts) "") eqn:Ek.
    + unfold Sticky.Pick in HP. rewrite Hav, Ek in HP.
      destruct (rrPick (rrOf s) provider model opts auths) as [res rr'].
      injection HP as _ <-. simpl.
      split; [auto|]. split; [discriminate|].
      intros ? _ Hkey. apply String.eqb_eq in Ek. contradiction.
    + apply String.eqb_neq in Ek.
      destruct (Pick_cases _ _ _ _ _ _ _ _ _ Hav Ek HP)
        as [(c' & _ & Hres & _)|[(c' & _ & _ & Hres & _)|(_ & _ & Hres & ->)]];
        try discriminate.
      injection Hres as ->. simpl.
      split; [|split; [discriminate|reflexivity]].
      intros k v Hk. apply heldBindings_lookup in Hk. tauto.
Qed.

(** The record [Pick] returns for a request with a session key is either
    the one the request's binding in force names, or one whose priority
    value is the least among all candidates. *)
Theorem Pick_prefers_least_priority_value (s s' : Selector) (now : Z)
    (provider model : string) (opts : Sticky.Options)
    (auths available : list (option Sticky.Auth))
    (c : Sticky.Auth) (e : option Sticky.Error) :
  getAvailableAuths auths provider model now = inr available ->
  sessionKeyOf opts <> EmptyString ->
  Pick s now provider model opts auths = ((Some c, e), s') ->
  (exists b, bindingsOf s !! bindingKeyOf provider opts = Some b
             /\ Sticky.authID b = Sticky.ID c
             /\ Sticky.authID b <> EmptyString /\ now < Sticky.expiresAt b)
  \/ (forall c', In c' available ->
        Sticky.authPriority (Some c) <= Sticky.authPriority c').
Proof.
  intros Hav Hkey HP.
  destruct (Pick_cases _ _ _ _ _ _ _ _ _ Hav Hkey HP)
    as [(c' & Hhit & Hres & _)|[(c' & _ & Hsel & Hres & _)|(_ & _ & Hres & _)]];
    [| |discriminate].
  - injection Hres as <- ->. left.
    destruct (boundHit_Some _ _ _ _ _ Hhit) as (b & Hb & Hl & Hf).
    destruct (findBound_Some _ _ _ Hf) as [Eid _].
    apply live_true in Hl. exists b. intuition.
  - injection Hres as <- ->. right.
    destruct (selectNew_Some _ _ _ _ _ _ Hkey Hsel) as (_ & _ & Hp & _).
    exact Hp.
Qed.

(** *** Load *)

(** A binding the load loop of lines 547 to 555 counts for [id]: its key
    is one of [provider], it has an id and [now] is not after its expiry,
    and the id is [id]. *)
Definition countsFor (provider : string) (now : Z) (id : string)
    (kv : string * Sticky.stickyBinding) : bool :=
  Strs.HasPrefix kv.1 (String.append provider ":")
  && negb (Sticky.stale now kv.2)
  && String.eqb (Sticky.authID kv.2) id.

(** The number of bindings of [m] that count for [id]. *)
Definition liveCount (provider : string) (now : Z)
    (m : gmap string Sticky.stickyBinding) (id : string) : Z :=
  Z.of_nat (size (filter (fun kv => countsFor provider now id kv = true) m)).

Lemma loadByAuthID_count (provider : string) (now : Z)
    (m : gmap string Sticky.stickyBinding) (id : string) :
  Sticky.loadOf (Sticky.loadByAuthID provider now m) id = liveCount provider now m id.
Proof.
  unfold Sticky.loadByAuthID, Sticky.loadOf, liveCount. revert id.
  apply (map_fold_weak_ind
           (fun (r : gmap string Z) (m : gmap string Sticky.stickyBinding) =>
              forall id, default 0 (r !! id)
                = Z.of_nat (size (filter (fun kv => countsFor provider now id kv = true) m)))).
  - intros id. rewrite lookup_empty, map_filter_empty, map_size_empty. reflexivity.
  - intros i x m' r Hi IH id.
    assert (Hskip : countsFor provider now id (i, x) = false ->
              size (filter (fun kv => countsFor provider now id kv = true) (<[i:=x]> m'))
              = size (filter (fun kv => countsFor provider now id kv = true) m')).
    { intros Hc. rewrite map_filter_insert_False by (rewrite Hc; discriminate).
      rewrite (delete_id _ _ Hi). reflexivity. }
    unfold countsFor in Hskip at 1. simpl in Hskip.
    destruct (Strs.HasPrefix i (String.append provider ":")) eqn:Ep; simpl.
    + destruct (Sticky.stale now x) eqn:Es; simpl in *.
      * rewrite Hskip by reflexivity. apply IH.
      * destruct (String.eqb (Sticky.authID x) id) eqn:Ei.
        -- apply String.eqb_eq in Ei. subst id. rewrite lookup_insert_eq. simpl.
           rewrite map_filter_insert_True
             by (unfold countsFor; simpl; rewrite Ep, Es, String.eqb_refl; reflexivity).
           rewrite map_size_insert_None
             by (apply map_lookup_filter_None_2; left; exact Hi).
           rewrite IH. lia.
        -- apply String.eqb_neq in Ei. rewrite lookup_insert_ne by exact Ei.
           rewrite Hskip by reflexivity. apply IH.
    + rewrite Hskip by reflexivity. apply IH.
Qed.

Lemma liveCount_le_size (provider : string) (now : Z)
    (m : gmap string Sticky.stickyBinding) (id : string) :
  0 <= liveCount provider now m id <= Z.of_nat (size m).
Proof.
  unfold liveCount. split; [lia|].
  apply inj_le. apply map_subseteq_size. apply map_filter_subseteq.
Qed.

Lemma heldBindings_size (s : Selector) (now : Z) (bk : string) :
  (size (heldBindings s now bk) <= size (bindingsOf s))%nat.
Proof.
  apply map_subseteq_size. apply map_subseteq_spec. intros k v Hk.
  apply heldBindings_lookup in Hk. tauto.
Qed.

(** The record [Pick] returns for a request with a session key is either
    the one the request's binding in force names, or one that no
    candidate with an id and the same priority has a smaller load
    than: the load of an id is the number of bindings of the provider
    that name it and that [now] is not after the expiry of, among the
    bindings garbage collection left, the request's own counted only if
    it is in force. *)
Theorem new_session_lands_on_least_loaded (s s' : Selector) (now : Z)
    (provider model : string) (opts : Sticky.Options)
    (auths available : list (option Sticky.Auth))
    (c : Sticky.Auth) (e : option Sticky.Error) :
  getAvailableAuths auths provider model now = inr available ->
  sessionKeyOf opts <> EmptyString ->
  Pick s now provider model opts auths = ((Some c, e), s') ->
  let held := heldBindings s now (bindingKeyOf provider opts) in
  ((exists b, bindingsOf s !! bindingKeyOf provider opts = Some b
              /\ Sticky.authID b = Sticky.ID c
              /\ Sticky.authID b <> EmptyString /\ now < Sticky.expiresAt b)
   \/ (forall c', In (Some c') available -> Sticky.ID c' <> EmptyString ->
         Sticky.authPriority (Some c') = Sticky.authPriority (Some c) ->
         liveCount provider now held (Sticky.ID c)
         <= liveCount provider now held (Sticky.ID c')))
  /\ (forall id, Sticky.loadOf (Sticky.loadByAuthID provider now held) id
                 = liveCount provider now held id)
  /\ (forall k v, held !! k = Some v
        <-> bindingsOf s !! k = Some v
            /\ (gcDue s now = true -> Sticky.stale now v = false)
            /\ (k = bindingKeyOf provider opts -> live now v = true)).
Proof.
  intros Hav Hkey HP held.
  split; [|split; [intros id; apply loadByAuthID_count
                  |intros k v; apply heldBindings_lookup]].
  destruct (Pick_cases _ _ _ _ _ _ _ _ _ Hav Hkey HP)
    as [(c' & Hhit & Hres & _)|[(c' & _ & Hsel & Hres & _)|(_ & _ & Hres & _)]];
    [| |discriminate].
  - injection Hres as <- ->. left.
    destruct (boundHit_Some _ _ _ _ _ Hhit) as (b & Hb & Hl & Hf).
    destruct (findBound_Some _ _ _ Hf) as [Eid _].
    apply live_true in Hl. exists b. intuition.
  - injection Hres as <- ->. right.
    destruct (selectNew_Some _ _ _ _ _ _ Hkey Hsel) as (_ & _ & _ & Hl).
    intros c' Hin Hne Hp. rewrite <- !loadByAuthID_count. apply Hl; assumption.
Qed.

(** *** Candidates that tie *)

Lemma lowest_witness {X : Type} (g : X -> bool) (f : X -> Z) (l : list X) (init : Z)
    (c0 : X) :
  In c0 l -> g c0 = true ->
  (forall c, In c l -> g c = true -> f c <= init) ->
  exists c, In c l /\ g c = true
    /\ f c = fold_left (fun m c => if g c then Sticky.lowerOf m (f c) else m) l init.
Proof.
  intros Hin Hg Hle.
  destruct (lowest_attained g f l init) as [E|(c & Hc & Hgc & E)].
  - exists c0. split; [exact Hin|]. split; [exact Hg|].
    pose proof (proj2 (lowest_le g f l init) c0 Hin Hg) as H1.
    specialize (Hle c0 Hin Hg). cbv zeta in E, H1. lia.
  - exists c. split; [exact Hc|]. split; [exact Hgc|]. symmetry. exact E.
Qed.

Lemma filter_all {X : Type} (f : X -> bool) (l : list X) :
  (forall x, In x l -> f x = true) -> List.filter f l = l.
Proof.
  induction l as [|a l IH]; intros H; simpl; [reflexivity|].
  rewrite (H a (or_introl eq_refl)). f_equal. apply IH.
  intros x Hx. apply H. right. exact Hx.
Qed.

Lemma rendezvousStep_unnamed (sessionKey : string) (acc : option (Sticky.Auth * Z))
    (c : option Sticky.Auth) :
  Sticky.named c = false -> Sticky.rendezvousStep sessionKey acc c = acc.
Proof.
  destruct c as [a|]; simpl; [|reflexivity].
  rewrite negb_false_iff. intros ->. reflexivity.
Qed.

Lemma rendezvous_fold_named (sessionKey : string) (l : list (option Sticky.Auth))
    (acc : option (Sticky.Auth * Z)) :
  fold_left (Sticky.rendezvousStep sessionKey) (List.filter Sticky.named l) acc
  = fold_left (Sticky.rendezvousStep sessionKey) l acc.
Proof.
  revert acc. induction l as [|a l IH]; intros acc; simpl; [reflexivity|].
  destruct (Sticky.named a) eqn:En; simpl.
  - apply IH.
  - rewrite (rendezvousStep_unnamed _ _ _ En). apply IH.
Qed.

Lemma pickRendezvous_named (sessionKey : string) (l : list (option Sticky.Auth)) :
  Sticky.pickRendezvous sessionKey (List.filter Sticky.named l)
  = Sticky.pickRendezvous sessionKey l.
Proof.
  unfold Sticky.pickRendezvous.
  destruct (String.eqb sessionKey ""); [reflexivity|]. simpl orb.
  rewrite rendezvous_fold_named.
  destruct l as [|a l]; [reflexivity|].
  change (Z.of_nat (length (a :: l)) =? 0) with false. cbv iota.
  destruct (List.filter Sticky.named (a :: l)) as [|a' l'] eqn:Ef.
  - rewrite <- (rendezvous_fold_named sessionKey (a :: l) None), Ef. reflexivity.
  - reflexivity.
Qed.

Lemma selectNew_tied (provider sessionKey : string) (now : Z)
    (m : gmap string Sticky.stickyBinding) (available : list (option Sticky.Auth)) :
  (forall c c', In c available -> In c' available ->
     Sticky.authPriority c = Sticky.authPriority c') ->
  (forall c, In c available -> Sticky.authPriority c <= Strconv.maxInt) ->
  (forall c c', In (Some c) available -> In (Some c') available ->
     Sticky.ID c <> EmptyString -> Sticky.ID c' <> EmptyString ->
     liveCount provider now m (Sticky.ID c) = liveCount provider now m (Sticky.ID c')) ->
  Z.of_nat (size m) <= Strconv.maxInt ->
  Sticky.selectNew provider sessionKey now m available
  = Sticky.pickRendezvous sessionKey available.
Proof.
  intros Hprio Hrange Hload Hsize. unfold Sticky.selectNew. cbv zeta.
  assert (Hp : Sticky.priorityFiltered available = available).
  { unfold Sticky.priorityFiltered. apply filter_all. intros c Hc. apply Z.eqb_eq.
    destruct (lowest_witness (fun _ => true) Sticky.authPriority available
                Strconv.maxInt c Hc eq_refl) as (c1 & Hc1 & _ & E).
    - intros c2 Hc2 _. apply Hrange. exact Hc2.
    - rewrite (Hprio c c1 Hc Hc1). exact E. }
  rewrite Hp. rewrite <- (pickRendezvous_named sessionKey available). f_equal.
  unfold Sticky.loadFiltered. apply filter_ext_in. intros c Hc.
  destruct (Sticky.named c) eqn:En; [|reflexivity]. simpl. apply Z.eqb_eq.
  destruct (lowest_witness Sticky.named
              (Sticky.candidateLoad (Sticky.loadByAuthID provider now m)) available
              Strconv.maxInt c Hc En) as (c1 & Hc1 & En1 & E).
  - intros [c2|] Hc2 Hn2; [|discriminate]. simpl.
    rewrite loadByAuthID_count.
    pose proof (liveCount_le_size provider now m (Sticky.ID c2)). lia.
  - unfold Sticky.minLoadOf. rewrite <- E.
    destruct c as [c|]; [|discriminate]. destruct c1 as [c1|]; [|discriminate].
    simpl. rewrite !loadByAuthID_count.
    apply Hload; try assumption; apply named_Some; assumption.
Qed.

Lemma boundHit_None (s : Selector) (now : Z) (bk : string)
    (available : list (option Sticky.Auth)) :
  (forall b c, bindingsOf s !! bk = Some b ->
     Sticky.authID b <> EmptyString -> now < Sticky.expiresAt b ->
     In (Some c) available -> Sticky.ID c <> Sticky.authID b) ->
  boundHit s now bk available = None.
Proof.
  intros H. unfold boundHit.
  destruct (bindingsOf s !! bk) as [b|]; [|reflexivity].
  destruct (live now b) eqn:El; [|reflexivity].
  destruct (Sticky.findBound (Sticky.authID b) available) as [c|] eqn:Ef; [|reflexivity].
  apply live_true in El. destruct El as [Hne Hexp].
  destruct (findBound_Some _ _ _ Ef) as [Eid Hin].
  elim (H b c eq_refl Hne Hexp Hin Eid).
Qed.

(** For a request with a session key and no binding in force to one of
    the candidates, when all candidates have the same priority and those
    with an id the same load, [Pick] returns what [pickRendezvous]
    chooses among the candidates. *)
Theorem tied_candidates_are_chosen_by_rendezvous (s : Selector) (now : Z)
    (provider model : string) (opts : Sticky.Options)
    (auths available : list (option Sticky.Auth)) :
  getAvailableAuths auths provider model now = inr available ->
  sessionKeyOf opts <> EmptyString ->
  (forall b c, bindingsOf s !! bindingKeyOf provider opts = Some b ->
     Sticky.authID b <> EmptyString -> now < Sticky.expiresAt b ->
     In (Some c) available -> Sticky.ID c <> Sticky.authID b) ->
  (forall c c', In c available -> In c' available ->
     Sticky.authPriority c = Sticky.authPriority c') ->
  (forall c, In c available -> Sticky.authPriority c <= Strconv.maxInt) ->
  (forall c c', In (Some c) available -> In (Some c') available ->
     Sticky.ID c <> EmptyString -> Sticky.ID c' <> EmptyString ->
     liveCount provider now (heldBindings s now (bindingKeyOf provider opts)) (Sticky.ID c)
     = liveCount provider now (heldBindings s now (bindingKeyOf provider opts))
         (Sticky.ID c')) ->
  Z.of_nat (size (bindingsOf s)) <= Strconv.maxInt ->
  fst (fst (Pick s now provider model opts auths))
  = Sticky.pickRendezvous (sessionKeyOf opts) available.
Proof.
  intros Hav Hkey Hnohit Hprio Hrange Hload Hsize.
  rewrite (Pick_outcome _ _ _ _ _ _ _ Hav Hkey). cbv zeta.
  rewrite (boundHit_None _ _ _ _ Hnohit).
  unfold Sticky.bindNew. simpl Sticky.bindings.
  rewrite (selectNew_tied _ _ _ _ _ Hprio Hrange Hload).
  - destruct (Sticky.pickRendezvous (sessionKeyOf opts) available); reflexivity.
  - pose proof (heldBindings_size s now (bindingKeyOf provider opts)). lia.
Qed.

(** When every candidate has an id (and there is one), [Pick] returns a
    record, and no error, for every request with a session key. *)
Theorem Pick_serves_when_candidates_have_ids (s : Selector) (now : Z)
    (provider model : string) (opts : Sticky.Options)
    (auths available : list (option Sticky.Auth)) :
  getAvailableAuths auths provider model now = inr available ->
  sessionKeyOf opts <> EmptyString ->
  available <> [] ->
  (forall c, In c available -> exists a, c = Some a /\ Sticky.ID a <> EmptyString) ->
  (forall c, In c available -> Sticky.authPriority c <= Strconv.maxInt) ->
  Z.of_nat (size (bindingsOf s)) <= Strconv.maxInt ->
  exists c s', Pick s now provider model opts auths = ((Some c, None), s').
Proof.
  intros Hav Hkey Hne Hnamed Hrange Hsize.
  rewrite (Pick_outcome _ _ _ _ _ _ _ Hav Hkey). cbv zeta.
  destruct (boundHit s now (bindingKeyOf provider opts) available) as [c|];
    [eexists; eexists; reflexivity|].
  unfold Sticky.bindNew. simpl Sticky.bindings.
  set (held := heldBindings s now (bindingKeyOf provider opts)).
  destruct (Sticky.selectNew provider (sessionKeyOf opts) now held available)
    as [c|] eqn:Esel; [eexists; eexists; reflexivity|].
  exfalso. unfold Sticky.selectNew in Esel. cbv zeta in Esel.
  pose proof (pickRendezvous_best (sessionKeyOf opts)
                (Sticky.loadFiltered (Sticky.loadByAuthID provider now held)
                   (Sticky.priorityFiltered available)) Hkey) as Hbest.
  rewrite Esel in Hbest.
  assert (Hn : forall c, In c available -> Sticky.named c = true).
  { intros c Hc. destruct (Hnamed c Hc) as (a & -> & Ha). apply named_Some. exact Ha. }
  destruct available as [|c0 rest] eqn:Eav; [contradiction|]. rewrite <- Eav in *.
  assert (Hc0 : In c0 available) by (rewrite Eav; left; reflexivity).
  destruct (lowest_witness (fun _ => true) Sticky.authPriority available
              Strconv.maxInt c0 Hc0 eq_refl) as (c1 & Hc1 & _ & E1).
  { intros c2 Hc2 _. apply Hrange. exact Hc2. }
  assert (Hf1 : In c1 (Sticky.priorityFiltered available))
    by (apply priorityFiltered_in; split; assumption).
  destruct (lowest_witness Sticky.named
              (Sticky.candidateLoad (Sticky.loadByAuthID provider now held))
              (Sticky.priorityFiltered available) Strconv.maxInt c1 Hf1 (Hn c1 Hc1))
    as (c2 & Hc2 & Hn2 & E2).
  { intros [c3|] Hc3 Hn3; [|discriminate]. simpl. rewrite loadByAuthID_count.
    pose proof (liveCount_le_size provider now held (Sticky.ID c3)).
    pose proof (heldBindings_size s now (bindingKeyOf provider opts)).
    fold held in H0. lia. }
  assert (Hf2 : In c2 (Sticky.loadFiltered (Sticky.loadByAuthID provider now held)
                         (Sticky.priorityFiltered available)))
    by (apply loadFiltered_in; split; [|split]; assumption).
  destruct c2 as [a2|]; [|discriminate].
  apply named_Some in Hn2. apply Hn2. apply Hbest. exact Hf2.
Qed.

(** *** Successive calls *)

(** Calls of [Pick] one after the other for the same provider, model and
    request, each at its own time and with its own candidates; the
    results in order, and the selector after the last call. *)
Fixpoint picks (s : Selector) (provider model : string) (opts : Sticky.Options)
    (calls : list (Z * list (option Sticky.Auth)))
  : list (option Sticky.Auth * option Sticky.Error) * Selector :=
  match calls with
  | [] => ([], s)
  | (now, auths) :: rest =>
      let '(res, s1) := Pick s now provider model opts auths in
      let '(out, s2) := picks s1 provider model opts rest in
      (res :: out, s2)
  end.

(** Each time is less than the TTL after the one before it, [t0] being
    the time before the first. *)
Fixpoint within (t0 : Z) (times : list Z) : Prop :=
  match times with
  | [] => True
  | t :: rest => t < t0 + Sticky.stickySessionTTL /\ within t rest
  end.

Lemma last_cons_default (a d : Z) (l : list Z) : List.last (a :: l) d = List.last l a.
Proof.
  revert a d. induction l as [|b l IH]; intros a d; [reflexivity|].
  change (List.last (a :: b :: l) d) with (List.last (b :: l) d).
  rewrite (IH b d), (IH b a). reflexivity.
Qed.

Lemma Pick_hit (s : Selector) (now : Z) (provider model : string)
    (opts : Sticky.Options) (auths available : list (option Sticky.Auth))
    (b : Sticky.stickyBinding) (c : Sticky.Auth) :
  getAvailableAuths auths provider model now = inr available ->
  sessionKeyOf opts <> EmptyString ->
  bindingsOf s !! bindingKeyOf provider opts = Some b ->
  live now b = true ->
  Sticky.findBound (Sticky.authID b) available = Some c ->
  Pick s now provider model opts auths
  = ((Some c, None),
     withBindings (swept s now)
       (<[bindingKeyOf provider opts := Sticky.fresh (Sticky.ID c) now]>
          (bindingsOf (swept s now)))).
Proof.
  intros Hav Hkey Hb Hl Hf. rewrite (Pick_outcome _ _ _ _ _ _ _ Hav Hkey). cbv zeta.
  unfold boundHit. rewrite Hb, Hl, Hf. reflexivity.
Qed.

Lemma picks_stay (provider model : string) (opts : Sticky.Options) (id : string) :
  sessionKeyOf opts <> EmptyString ->
  id <> EmptyString ->
  forall (calls : list (Z * list (option Sticky.Auth))) (s : Selector) (t0 : Z),
    bindingsOf s !! bindingKeyOf provider opts = Some (Sticky.fresh id t0) ->
    within t0 (map fst calls) ->
    Forall (fun call => exists av c,
              getAvailableAuths call.2 provider model call.1 = inr av
              /\ In (Some c) av /\ Sticky.ID c = id) calls ->
    Forall2 (fun call res => exists av c,
               getAvailableAuths call.2 provider model call.1 = inr av
               /\ Sticky.findBound id av = Some c /\ res = (Some c, None))
      calls (fst (picks s provider model opts calls))
    /\ bindingsOf (snd (picks s provider model opts calls)) !! bindingKeyOf provider opts
       = Some (Sticky.fresh id (List.last (map fst calls) t0)).
Proof.
  intros Hkey Hid. induction calls as [|[now auths] rest IH]; intros s t0 Hb Hw Hall.
  - simpl. split; [constructor | exact Hb].
  - simpl in Hw. destruct Hw as [Hnow Hw].
    pose proof (Forall_inv Hall) as (av & c0 & Hav & Hin & Hc0).
    pose proof (Forall_inv_tail Hall) as Hrest.
    simpl in Hav.
    destruct (findBound_exists _ _ _ Hin Hc0) as [c Hc].
    destruct (findBound_Some _ _ _ Hc) as [Eid _].
    assert (Hl : live now (Sticky.fresh id t0) = true).
    { apply live_true. simpl. split; [exact Hid|]. unfold Time.Add. exact Hnow. }
    pose proof (Pick_hit s now provider model opts auths av _ c Hav Hkey Hb Hl Hc) as HP.
    simpl picks. rewrite HP.
    match goal with
    | |- context [picks ?s1 provider model opts rest] =>
        specialize (IH s1 now); destruct (picks s1 provider model opts rest) as [out s2]
    end.
    simpl in IH. rewrite lookup_insert_eq, Eid in IH.
    destruct (IH eq_refl Hw Hrest) as [IH1 IH2].
    split.
    + simpl. constructor; [|exact IH1]. exists av, c. simpl. auto.
    + simpl (snd _). simpl (map _ _). rewrite last_cons_default. exact IH2.
Qed.

Lemma Forall2_with {A B : Type} (P : A -> Prop) (R : A -> B -> Prop)
    (l : list A) (l' : list B) :
  Forall P l -> Forall2 R l l' -> Forall2 (fun a b => P a /\ R a b) l l'.
Proof.
  intros HP HR. induction HR as [|a b l l' Hab HR IH]; [constructor|].
  constructor.
  - split; [exact (Forall_inv HP) | exact Hab].
  - apply IH. exact (Forall_inv_tail HP).
Qed.

Lemma Forall2_weaken {A B : Type} (R1 R2 : A -> B -> Prop)
    (l : list A) (l' : list B) :
  (forall a b, R1 a b -> R2 a b) -> Forall2 R1 l l' -> Forall2 R2 l l'.
Proof.
  intros H HR. induction HR; constructor; auto.
Qed.

(** Once [Pick] has returned a record for a request with a session key,
    every later call for that request returns a record with the same id,
    and no error, as long as each call comes less than an hour after the
    one before it and finds the same set of candidates; it is the very
    same record when no two candidates share an id.  After the last call
    the binding expires an hour after that call and was last used
    then. *)
Theorem sticky_session_is_stable (s s1 : Selector) (t0 : Z)
    (provider model : string) (opts : Sticky.Options)
    (auths0 available : list (option Sticky.Auth))
    (r : Sticky.Auth) (e : option Sticky.Error)
    (calls : list (Z * list (option Sticky.Auth))) :
  sessionKeyOf opts <> EmptyString ->
  getAvailableAuths auths0 provider model t0 = inr available ->
  Pick s t0 provider model opts auths0 = ((Some r, e), s1) ->
  within t0 (map fst calls) ->
  Forall (fun call => exists av,
            getAvailableAuths call.2 provider model call.1 = inr av
            /\ forall c, In c av <-> In c available) calls ->
  Forall2 (fun call res => exists c,
             res = (Some c, None) /\ Sticky.ID c = Sticky.ID r
             /\ In (Some c) available
             /\ ((forall c1 c2, In (Some c1) available -> In (Some c2) available ->
                    Sticky.ID c1 = Sticky.ID c2 -> c1 = c2) -> c = r))
    calls (fst (picks s1 provider model opts calls))
  /\ bindingsOf (snd (picks s1 provider model opts calls)) !! bindingKeyOf provider opts
     = Some {| Sticky.authID := Sticky.ID r;
               Sticky.expiresAt := List.last (map fst calls) t0 + 3600 * 1000000000;
               Sticky.lastUsedAt := List.last (map fst calls) t0 |}.
Proof.
  intros Hkey Hav HP Hw Hall.
  destruct (Pick_Some _ _ _ _ _ _ _ _ _ _ Hav Hkey HP) as (_ & Hin & Hid & Hb).
  assert (Hall' : Forall (fun call => exists av c,
                     getAvailableAuths call.2 provider model call.1 = inr av
                     /\ In (Some c) av /\ Sticky.ID c = Sticky.ID r) calls).
  { eapply Forall_impl; [exact Hall|]. intros call (av & Hc & Hset).
    exists av, r. split; [exact Hc|]. split; [apply Hset; exact Hin | reflexivity]. }
  destruct (picks_stay provider model opts (Sticky.ID r) Hkey Hid calls s1 t0 Hb Hw Hall')
    as [H1 H2].
  split; [|exact H2].
  eapply Forall2_weaken; [|exact (Forall2_with _ _ _ _ Hall H1)].
  intros call res [(av & Hc & Hset) (av' & c & Hc' & Hf & ->)].
  rewrite Hc in Hc'. injection Hc' as <-.
  destruct (findBound_Some _ _ _ Hf) as [Eid Hcin].
  exists c. split; [reflexivity|]. split; [exact Eid|].
  assert (Hca : In (Some c) available) by (apply Hset; exact Hcin).
  split; [exact Hca|]. intros Huniq. apply Huniq; assumption.
Qed.

(** A session whose bound record is not among the candidates is given
    another record, and keeps it: as long as each later call comes less
    than an hour after the one before it and finds a candidate with the
    new record's id, every call returns a record with that id, whether
    or not the record bound at first is a candidate again. *)
Theorem failover_is_not_undone (s s1 : Selector) (t0 : Z)
    (provider model : string) (opts : Sticky.Options)
    (auths0 available0 : list (option Sticky.Auth))
    (b : Sticky.stickyBinding) (y : Sticky.Auth) (e : option Sticky.Error)
    (calls : list (Z * list (option Sticky.Auth))) :
  sessionKeyOf opts <> EmptyString ->
  bindingsOf s !! bindingKeyOf provider opts = Some b ->
  getAvailableAuths auths0 provider model t0 = inr available0 ->
  (forall c, In (Some c) available0 -> Sticky.ID c <> Sticky.authID b) ->
  Pick s t0 provider model opts auths0 = ((Some y, e), s1) ->
  within t0 (map fst calls) ->
  Forall (fun call => exists av c,
            getAvailableAuths call.2 provider model call.1 = inr av
            /\ In (Some c) av /\ Sticky.ID c = Sticky.ID y) calls ->
  Sticky.ID y <> Sticky.authID b
  /\ Forall2 (fun call res => exists c,
                res = (Some c, None) /\ Sticky.ID c = Sticky.ID y
                /\ Sticky.ID c <> Sticky.authID b)
       calls (fst (picks s1 provider model opts calls))
  /\ bindingsOf (snd (picks s1 provider model opts calls)) !! bindingKeyOf provider opts
     = Some {| Sticky.authID := Sticky.ID y;
               Sticky.expiresAt := List.last (map fst calls) t0 + 3600 * 1000000000;
               Sticky.lastUsedAt := List.last (map fst calls) t0 |}.
Proof.
  intros Hkey Hbound Hav Hgone HP Hw Hall.
  destruct (Pick_Some _ _ _ _ _ _ _ _ _ _ Hav Hkey HP) as (_ & Hin & Hid & Hb).
  assert (Hy : Sticky.ID y <> Sticky.authID b) by (apply Hgone; exact Hin).
  destruct (picks_stay provider model opts (Sticky.ID y) Hkey Hid calls s1 t0 Hb Hw Hall)
    as [H1 H2].
  split; [exact Hy|]. split; [|exact H2].
  eapply Forall2_weaken; [|exact H1].
  intros call res (av & c & _ & Hf & ->).
  destruct (findBound_Some _ _ _ Hf) as [Eid _].
  exists c. split; [reflexivity|]. split; [exact Eid|]. congruence.
Qed.

(** *** Session counts *)

(** A binding that names [id], has an id and that [now] is not after the
    expiry of. *)
Definition namesLive (now : Z) (id : string)
    (kv : string * Sticky.stickyBinding) : bool :=
  negb (Sticky.stale now kv.2) && String.eqb (Sticky.authID kv.2) id.

(** What the entry of [id] in the map of [SessionBindingStatuses] is, for
    the bindings [m]. *)
Definition statsFor (now : Z) (m : gmap string Sticky.stickyBinding) (id : string)
    (o : option Sticky.SessionBindingStatus) : Prop :=
  match o with
  | Some e =>
      Sticky.AuthID e = id
      /\ Sticky.SessionCount e
         = Z.of_nat (size (filter (fun kv => namesLive now id kv = true) m))
      /\ 0 < Sticky.SessionCount e
      /\ (exists k b, m !! k = Some b /\ namesLive now id (k, b) = true
                      /\ Sticky.lastUsedAt b = Sticky.LastUsedAt e)
      /\ ((forall k b, m !! k = Some b -> 0 <= Sticky.lastUsedAt b) ->
          forall k b, m !! k = Some b -> namesLive now id (k, b) = true ->
                      Sticky.lastUsedAt b <= Sticky.LastUsedAt e)
  | None => forall k b, m !! k = Some b -> namesLive now id (k, b) = false
  end.

Lemma lookup_insert_fresh {A : Type} (m : gmap string A) (i k : string) (x b : A) :
  m !! i = None ->
  (<[i:=x]> m !! k = Some b <-> (k = i /\ b = x) \/ (k <> i /\ m !! k = Some b)).
Proof.
  intros Hi. rewrite lookup_insert_Some. split.
  - intros [[-> ->]|[Hne H]]; [left; auto | right; auto].
  - intros [[-> ->]|[Hne H]]; [left; auto | right; auto].
Qed.

Lemma statsFor_skip (now : Z) (m : gmap string Sticky.stickyBinding) (id i : string)
    (x : Sticky.stickyBinding) (o : option Sticky.SessionBindingStatus) :
  m !! i = None -> namesLive now id (i, x) = false ->
  statsFor now m id o -> statsFor now (<[i:=x]> m) id o.
Proof.
  intros Hi Hx H. destruct o as [e|]; simpl in *.
  - destruct H as (H1 & H2 & H3 & (k & b & Hk & Hn & Hlu) & H5).
    split; [exact H1|]. split; [|split; [exact H3|split]].
    + rewrite map_filter_insert_False by (rewrite Hx; discriminate).
      rewrite (delete_id _ _ Hi). exact H2.
    + exists k, b. split; [|auto]. apply lookup_insert_fresh; [exact Hi|].
      right. split; [congruence | exact Hk].
    + intros Hpos k' b' Hk' Hn'.
      apply (lookup_insert_fresh _ _ _ _ _ Hi) in Hk'.
      destruct Hk' as [[-> ->]|[Hne Hk']]; [congruence|].
      assert (Hpos' : forall k0 b0, m !! k0 = Some b0 -> 0 <= Sticky.lastUsedAt b0).
      { intros k0 b0 H0. apply (Hpos k0). apply lookup_insert_fresh; [exact Hi|].
        right. split; [congruence | exact H0]. }
      apply (H5 Hpos' k' b' Hk' Hn').
  - intros k b Hk. apply (lookup_insert_fresh _ _ _ _ _ Hi) in Hk.
    destruct Hk as [[-> ->]|[_ Hk]]; [exact Hx | apply H; exact Hk].
Qed.

Lemma sessionStats_spec (now : Z) (m : gmap string Sticky.stickyBinding) (id : string) :
  statsFor now m id (Sticky.sessionStats now m !! id).
Proof.
  unfold Sticky.sessionStats. revert id.
  apply (map_fold_weak_ind
           (fun (r : gmap string Sticky.SessionBindingStatus)
                (m : gmap string Sticky.stickyBinding) =>
              forall id, statsFor now m id (r !! id))).
  - intros id. rewrite lookup_empty. intros k b Hk.
    rewrite lookup_empty in Hk. discriminate.
  - intros i x m' r Hi IH id. unfold Sticky.statsStep.
    destruct (Sticky.stale now x) eqn:Es.
    + apply statsFor_skip; [exact Hi| |apply IH].
      unfold namesLive. simpl. rewrite Es. reflexivity.
    + destruct (String.eqb (Sticky.authID x) id) eqn:Ei.
      2:{ apply String.eqb_neq in Ei. rewrite lookup_insert_ne by exact Ei.
          apply statsFor_skip; [exact Hi| |apply IH].
          unfold namesLive. simpl. apply String.eqb_neq in Ei. rewrite Es, Ei.
          reflexivity. }
      apply String.eqb_eq in Ei. subst id. rewrite lookup_insert_eq.
      assert (Hx : namesLive now (Sticky.authID x) (i, x) = true).
      { unfold namesLive. simpl. rewrite Es, String.eqb_refl. reflexivity. }
      assert (Hsize :
        size (filter (fun kv => namesLive now (Sticky.authID x) kv = true) (<[i:=x]> m'))
        = S (size (filter (fun kv => namesLive now (Sticky.authID x) kv = true) m'))).
      { rewrite map_filter_insert_True by exact Hx.
        apply map_size_insert_None. apply map_lookup_filter_None_2. left. exact Hi. }
      specialize (IH (Sticky.authID x)).
      destruct (r !! Sticky.authID x) as [e|]; simpl in IH |- *.
      * destruct IH as (H1 & H2 & H3 & (k & b & Hk & Hn & Hlu) & H5).
        split; [reflexivity|]. split; [rewrite Hsize, H2; lia|]. split; [lia|].
        unfold Time.IsZero, Time.After.
        split.
        -- destruct ((Sticky.LastUsedAt e =? 0)
                     || (Sticky.LastUsedAt e <? Sticky.lastUsedAt x)).
           ++ exists i, x. rewrite lookup_insert_eq. auto.
           ++ exists k, b. split; [|auto]. apply lookup_insert_fresh; [exact Hi|].
              right. split; [congruence | exact Hk].
        -- intros Hpos k' b' Hk' Hn'.
           assert (Hx0 : 0 <= Sticky.lastUsedAt x)
             by (apply (Hpos i); apply lookup_insert_eq).
           assert (Hpos' : forall k0 b0, m' !! k0 = Some b0 -> 0 <= Sticky.lastUsedAt b0).
           { intros k0 b0 H0. apply (Hpos k0). apply lookup_insert_fresh; [exact Hi|].
             right. split; [congruence | exact H0]. }
           apply (lookup_insert_fresh _ _ _ _ _ Hi) in Hk'.
           destruct ((Sticky.LastUsedAt e =? 0)
                     || (Sticky.LastUsedAt e <? Sticky.lastUsedAt x)) eqn:Ecmp.
           ++ destruct Hk' as [[-> ->]|[_ Hk']]; [lia|].
              pose proof (H5 Hpos' k' b' Hk' Hn') as Hle.
              apply orb_true_iff in Ecmp. destruct Ecmp as [E|E].
              ** apply Z.eqb_eq in E. lia.
              ** apply Z.ltb_lt in E. lia.
           ++ apply orb_false_iff in Ecmp. destruct Ecmp as [_ E].
              apply Z.ltb_ge in E.
              destruct Hk' as [[-> ->]|[_ Hk']]; [exact E|].
              apply (H5 Hpos' k' b' Hk' Hn').
      * assert (He : filter (fun kv => namesLive now (Sticky.authID x) kv = true) m' = ∅).
        { apply map_empty. intros j. apply map_lookup_filter_None_2. right.
          intros b Hb. rewrite (IH j b Hb). discriminate. }
        split; [reflexivity|].
        split; [rewrite Hsize, He, map_size_empty; reflexivity|]. split; [lia|].
        split.
        -- exists i, x. rewrite lookup_insert_eq. auto.
        -- intros _ k' b' Hk' Hn'.
           apply (lookup_insert_fresh _ _ _ _ _ Hi) in Hk'.
           destruct Hk' as [[-> ->]|[_ Hk']]; [simpl; lia|].
           rewrite (IH k' b' Hk') in Hn'. discriminate.
Qed.

Lemma stats_values (stats : gmap string Sticky.SessionBindingStatus)
    (e : Sticky.SessionBindingStatus) :
  In e (map snd (map_to_list stats)) <-> exists id, stats !! id = Some e.
Proof.
  rewrite in_map_iff. split.
  - intros ([id e'] & <- & Hin). exists id.
    apply elem_of_map_to_list. apply list_elem_of_In. exact Hin.
  - intros (id & H). exists (id, e). split; [reflexivity|].
    apply list_elem_of_In. apply elem_of_map_to_list. exact H.
Qed.

Lemma stats_ids (l : list (string * Sticky.SessionBindingStatus)) :
  (forall kv, In kv l -> Sticky.AuthID kv.2 = kv.1) ->
  map Sticky.AuthID (map snd l) = l.*1.
Proof.
  induction l as [|kv l IH]; intros H; simpl; [reflexivity|].
  rewrite (H kv (or_introl eq_refl)). f_equal. apply IH.
  intros kv' Hkv'. apply H. right. exact Hkv'.
Qed.

(** [SessionBindingStatuses] reports one entry for each id that a binding
    in force names, and no other.  The session count of an entry is the
    number of the bindings that name its id, have an id and that [now] is
    not after the expiry of; its last use is the last use of one of them,
    the latest when no last use is before the zero time.  Before
    counting, garbage is collected under the conditions of [Pick]; a
    selector without bindings reports nothing and is left as it is. *)
Theorem session_counts_are_live_bindings (s : Selector) (now : Z) :
  let out := fst (Sticky.SessionBindingStatuses RoundRobinSelector s now) in
  let s' := snd (Sticky.SessionBindingStatuses RoundRobinSelector s now) in
  (forall e, In e out ->
     Sticky.AuthID e <> EmptyString
     /\ 0 < Sticky.SessionCount e
     /\ Sticky.SessionCount e
        = Z.of_nat (size (filter (fun kv => namesLive now (Sticky.AuthID e) kv = true)
                            (bindingsOf s')))
     /\ (exists k b, bindingsOf s' !! k = Some b
                     /\ namesLive now (Sticky.AuthID e) (k, b) = true
                     /\ Sticky.lastUsedAt b = Sticky.LastUsedAt e)
     /\ ((forall k b, bindingsOf s' !! k = Some b -> 0 <= Sticky.lastUsedAt b) ->
         forall k b, bindingsOf s' !! k = Some b ->
                     namesLive now (Sticky.AuthID e) (k, b) = true ->
                     Sticky.lastUsedAt b <= Sticky.LastUsedAt e))
  /\ (forall k b, bindingsOf s' !! k = Some b -> Sticky.stale now b = false ->
        exists e, In e out /\ Sticky.AuthID e = Sticky.authID b)
  /\ NoDup (map Sticky.AuthID out)
  /\ (bindingsOf s = ∅ -> out = [] /\ s' = s)
  /\ (bindingsOf s <> ∅ ->
      s' = if (Sticky.stickyGCMinEntries <=? Z.of_nat (size (bindingsOf s)))
              || (lastGCOf s =? 0)
              || (Sticky.stickyGCInterval <=? now - lastGCOf s)
           then gcLocked s now else s).
Proof.
  cbv zeta. unfold Sticky.SessionBindingStatuses. cbv zeta.
  destruct (Z.of_nat (size (bindingsOf s)) =? 0) eqn:En.
  - apply Z.eqb_eq in En.
    assert (He : bindingsOf s = ∅) by (apply map_size_empty_inv; lia).
    simpl. split; [intros e []|]. split.
    { intros k b Hk. rewrite He, lookup_empty in Hk. discriminate. }
    split; [constructor|]. split; [auto|]. intros Hne. contradiction.
  - match goal with
    | |- context [if ?c then gcLocked s now else s] =>
        set (s1 := if c then gcLocked s now else s)
    end.
    simpl fst. simpl snd.
    assert (Hstats : forall e, In e (map snd (map_to_list
                                      (Sticky.sessionStats now (bindingsOf s1))))
              <-> exists id, Sticky.sessionStats now (bindingsOf s1) !! id = Some e)
      by (intros e; apply stats_values).
    split; [|split; [|split; [|split]]].
    + intros e He. apply Hstats in He. destruct He as (id & He).
      pose proof (sessionStats_spec now (bindingsOf s1) id) as H.
      rewrite He in H. simpl in H. destruct H as (H1 & H2 & H3 & H4 & H5).
      rewrite H1.
      split; [|split; [exact H3|split; [exact H2|split; [exact H4|exact H5]]]].
      destruct H4 as (k & b & _ & Hn & _). unfold namesLive in Hn. simpl in Hn.
      apply andb_true_iff in Hn. destruct Hn as [Hs Hid].
      apply negb_true_iff in Hs. apply stale_false in Hs.
      apply String.eqb_eq in Hid. destruct Hs as [Hs _]. congruence.
    + intros k b Hk Hs.
      pose proof (sessionStats_spec now (bindingsOf s1) (Sticky.authID b)) as H.
      destruct (Sticky.sessionStats now (bindingsOf s1) !! Sticky.authID b) as [e|] eqn:He;
        simpl in H.
      * exists e. split; [apply Hstats; eauto | tauto].
      * specialize (H k b Hk). unfold namesLive in H. simpl in H.
        rewrite Hs, String.eqb_refl in H. discriminate.
    + rewrite stats_ids; [apply NoDup_fst_map_to_list|].
      intros [id e] Hin. simpl.
      apply list_elem_of_In, elem_of_map_to_list in Hin.
      pose proof (sessionStats_spec now (bindingsOf s1) id) as H.
      rewrite Hin in H. simpl in H. tauto.
    + intros He. rewrite He, map_size_empty in En. discriminate.
    + intros _. subst s1. unfold Time.IsZero.
      assert (Hsub : (Sticky.stickyGCInterval <=? Time.Sub now (lastGCOf s))
                     = (Sticky.stickyGCInterval <=? now - lastGCOf s)).
      { apply eq_true_iff_eq. rewrite !Z.leb_le.
        unfold Time.Sub, Sticky.stickyGCInterval, Time.Minute, Time.Second,
          Strconv.minInt, Strconv.maxInt. lia. }
      rewrite Hsub. reflexivity.
Qed.

End StickyProperties.

(** ** Priorities *)





(** ** Concrete selectors *)

Module StickyScenario.

Definition gjson : string -> string -> string := Scenario.gjsonOf "".

(** A stand-in for the round-robin selector: the first record. *)
Definition roundRobin (r : unit) (provider model : string) (opts : Sticky.Options)
    (auths : list (option Sticky.Auth))
  : (option Sticky.Auth * option Sticky.Error) * unit :=
  ((match auths with c :: _ => c | [] => None end, None), r).

(** An active record of provider codex without quota or model state. *)
Definition record (id : string) (priority : Z) : Sticky.Auth :=
  {| Sticky.ID := id; Sticky.Provider := "codex";
     Sticky.AuthStatus := Sticky.StatusActive; Sticky.Disabled := false;
     Sticky.Metadata := {[ "priority" := Sticky.AInt priority ]};
     Sticky.Attributes := ∅;
     Sticky.Quota := {| Sticky.Exceeded := false; Sticky.NextRecoverAt := 0 |};
     Sticky.ModelStates := ∅ |}.

Definition a : Sticky.Auth := record "a" 50.
Definition b : Sticky.Auth := record "b" 50.
Definition high : Sticky.Auth := record "high" 10.

Definition opts : Sticky.Options := Scenario.request [("session_id", "s123")].

Definition key : string := "codex:codex:a9dcdc7159d1a9daae0ccc718f5dbc2b".

Definition noon : Z := 1000 * Time.Hour.

Definition binding (id : string) (expires : Z) : Sticky.stickyBinding :=
  {| Sticky.authID := id; Sticky.expiresAt := expires;
     Sticky.lastUsedAt := noon - Time.Minute |}.

Definition selector (collected : Z) (m : gmap string Sticky.stickyBinding)
  : Sticky.StickySelector unit :=
  {| Sticky.bindings := m; Sticky.lastGC := collected; Sticky.rr := tt |}.

Definition sessionKey : string := "codex:a9dcdc7159d1a9daae0ccc718f5dbc2b".

Definition Pick :=
  Sticky.Pick unit gjson roundRobin Eligibility.getAvailableAuths.

Definition picks :=
  picks unit gjson roundRobin Eligibility.getAvailableAuths.

End StickyScenario.

Import StickyScenario.

(** Among [a] and [b] the key of the scenario chooses [b], whose score
    is the higher. *)
Lemma rendezvous_highest_score_witness :
  Sticky.rendezvousScore sessionKey (Sticky.ID a)
    < Sticky.rendezvousScore sessionKey (Sticky.ID b)
  \/ (Sticky.rendezvousScore sessionKey (Sticky.ID a)
        = Sticky.rendezvousScore sessionKey (Sticky.ID b)
      /\ Strs.ltb (Sticky.ID a) (Sticky.ID b) = false).
Proof.
  assert (Hkey : sessionKey <> EmptyString) by discriminate.
  destruct (rendezvous_picks_highest_score sessionKey [Some a; Some b] Hkey) as [H _].
  assert (Hb : Sticky.pickRendezvous sessionKey [Some a; Some b] = Some b)
    by (vm_compute; reflexivity).
  destruct (H b Hb) as (_ & _ & Hall).
  apply (Hall a); [left; reflexivity | discriminate].
Defined.

(** The same two ids in another order, with a nil and a repeated entry. *)
Lemma rendezvous_ids_only_witness :
  option_map Sticky.ID (Sticky.pickRendezvous sessionKey [Some a; Some b])
  = option_map Sticky.ID
      (Sticky.pickRendezvous sessionKey [Some b; None; Some a; Some b]).
Proof.
  apply rendezvous_depends_on_ids_only. intros id _.
  split; intros (c & Hin & Hc); simpl in Hin.
  - destruct Hin as [Hin|[Hin|[]]]; injection Hin as <-;
      eexists; (split; [|exact Hc]); simpl; auto 10.
  - destruct Hin as [Hin|[Hin|[Hin|[Hin|[]]]]]; try discriminate;
      injection Hin as <-; eexists; (split; [|exact Hc]); simpl; auto 10.
Defined.

(** The selector of [TestStickySelector_GCRemovesExpiredBindings]: last
    collected an hour ago, with a binding that expired a minute ago and
    one that expires in a minute. *)
Definition twoBindings : Sticky.StickySelector unit :=
  selector (noon - Time.Hour)
    {[ "codex:dead" := binding "a" (noon - Time.Minute);
       "codex:live" := binding "b" (noon + Time.Minute) ]}.

Lemma Pick_touches_witness :
  let s' := snd (Pick twoBindings noon "codex" "gpt-5" opts [Some a; Some b]) in
  Sticky.bindings unit s' !! "codex:live" = Some (binding "b" (noon + Time.Minute))
  /\ Sticky.lastGC unit s' = noon.
Proof.
  intros s'.
  destruct (Pick_touches_only_its_own_binding unit gjson roundRobin
              Eligibility.getAvailableAuths twoBindings s' noon "codex" "gpt-5" opts
              [Some a; Some b] [Some a; Some b]
              (fst (Pick twoBindings noon "codex" "gpt-5" opts [Some a; Some b])))
    as (Hk & Hgc & _).
  - vm_compute. reflexivity.
  - vm_compute. discriminate.
  - apply surjective_pairing.
  - split.
    + apply Hk; [vm_compute; discriminate|].
      split; [vm_compute; reflexivity|].
      intros _. split; [discriminate | vm_compute; discriminate].
    + rewrite Hgc. vm_compute. reflexivity.
Defined.

(** A session bound to [a] for another minute, [a] being a candidate. *)
Lemma bound_session_witness :
  exists c s',
    Pick (selector noon {[ key := binding "a" (noon + Time.Minute) ]})
      noon "codex" "gpt-5" opts [Some b; Some a] = ((Some c, None), s')
    /\ Sticky.ID c = "a"
    /\ Sticky.bindings unit s' !! key
       = Some {| Sticky.authID := "a";
                 Sticky.expiresAt := noon + 3600 * 1000000000;
                 Sticky.lastUsedAt := noon |}.
Proof.
  destruct (bound_session_is_served_and_refreshed unit gjson roundRobin
              Eligibility.getAvailableAuths
              (selector noon {[ key := binding "a" (noon + Time.Minute) ]})
              noon "codex" "gpt-5" opts [Some b; Some a] [Some b; Some a]
              (binding "a" (noon + Time.Minute)) a)
    as (c & s' & HP & _ & Hid & _ & Hb).
  - vm_compute. reflexivity.
  - vm_compute. discriminate.
  - vm_compute. reflexivity.
  - discriminate.
  - vm_compute. reflexivity.
  - right. left. reflexivity.
  - reflexivity.
  - exists c, s'. split; [exact HP|]. split; [exact Hid | exact Hb].
Defined.

(** A first request, with no binding yet. *)
Lemma picked_record_witness :
  let s' := snd (Pick (selector noon ∅) noon "codex" "gpt-5" opts [Some a; Some b]) in
  In (Some b) [Some a; Some b]
  /\ Sticky.bindings unit s' !! key
     = Some {| Sticky.authID := Sticky.ID b;
               Sticky.expiresAt := noon + 3600 * 1000000000;
               Sticky.lastUsedAt := noon |}.
Proof.
  intros s'.
  destruct (picked_record_is_bound unit gjson roundRobin Eligibility.getAvailableAuths
              (selector noon ∅) s' noon "codex" "gpt-5" opts
              [Some a; Some b] [Some a; Some b] b None)
    as (_ & Hin & _ & Hb).
  - vm_compute. reflexivity.
  - vm_compute. discriminate.
  - vm_compute. reflexivity.
  - split; [exact Hin | exact Hb].
Defined.

(** A request whose only candidate has no id: the binding of another
    session stays, and none is made. *)
Lemma failed_Pick_witness :
  let s := selector noon {[ "codex:other" := binding "b" (noon + Time.Minute) ]} in
  let s' := snd (Pick s noon "codex" "gpt-5" opts [Some (record "" 50)]) in
  (forall k v, Sticky.bindings unit s' !! k = Some v -> Sticky.bindings unit s !! k = Some v)
  /\ fst (Pick s noon "codex" "gpt-5" opts [Some (record "" 50)])
     = (None, Some {| Sticky.Code := "auth_not_found";
                      Sticky.Message := "no auth available" |}).
Proof.
  intros s s'.
  destruct (failed_Pick_leaves_no_binding unit gjson roundRobin
              Eligibility.getAvailableAuths s s' noon "codex" "gpt-5" opts
              [Some (record "" 50)] (Some Sticky.notFound))
    as (Hsub & _ & _).
  - vm_compute. reflexivity.
  - split; [exact Hsub | vm_compute; reflexivity].
Defined.

(** The session was bound to nothing; [high] has the lower priority
    value and is chosen, whatever the scores. *)
Lemma least_priority_witness :
  Sticky.authPriority (Some high) <= Sticky.authPriority (Some a)
  /\ Sticky.authPriority (Some high) <= Sticky.authPriority (Some b).
Proof.
  destruct (Pick_prefers_least_priority_value unit gjson roundRobin
              Eligibility.getAvailableAuths (selector noon ∅)
              (snd (Pick (selector noon ∅) noon "codex" "gpt-5" opts
                      [Some a; Some high; Some b]))
              noon "codex" "gpt-5" opts
              [Some a; Some high; Some b] [Some a; Some high; Some b] high None)
    as [(b0 & Hb0 & _)|H].
  - vm_compute. reflexivity.
  - vm_compute. discriminate.
  - vm_compute. reflexivity.
  - vm_compute in Hb0. discriminate Hb0.
  - split; apply H; simpl; auto.
Defined.

(** Another session is bound to [b], which has the higher score: the
    new session is given [a]. *)
Definition oneBound : Sticky.StickySelector unit :=
  selector noon {[ "codex:other" := binding "b" (noon + Time.Minute) ]}.

Lemma least_loaded_witness :
  let held := heldBindings unit oneBound noon (bindingKeyOf gjson "codex" opts) in
  liveCount "codex" noon held (Sticky.ID a) <= liveCount "codex" noon held (Sticky.ID b).
Proof.
  destruct (new_session_lands_on_least_loaded unit gjson roundRobin
              Eligibility.getAvailableAuths oneBound
              (snd (Pick oneBound noon "codex" "gpt-5" opts [Some a; Some b]))
              noon "codex" "gpt-5" opts [Some a; Some b] [Some a; Some b] a None)
    as ([(b0 & Hb0 & _)|H] & _).
  - vm_compute. reflexivity.
  - vm_compute. discriminate.
  - vm_compute. reflexivity.
  - vm_compute in Hb0. discriminate Hb0.
  - intros held. apply (H b); [right; left; reflexivity | discriminate | reflexivity].
Defined.

(** [a] and [b] tie on priority and on load: rendezvous decides. *)
Lemma tied_candidates_witness :
  fst (fst (Pick (selector noon ∅) noon "codex" "gpt-5" opts [Some a; Some b]))
  = Sticky.pickRendezvous (Sticky.extractStickySessionKey gjson opts) [Some a; Some b].
Proof.
  apply (tied_candidates_are_chosen_by_rendezvous unit gjson roundRobin
           Eligibility.getAvailableAuths (selector noon ∅) noon "codex" "gpt-5" opts
           [Some a; Some b] [Some a; Some b]).
  - vm_compute. reflexivity.
  - vm_compute. discriminate.
  - intros b0 c Hb0. vm_compute in Hb0. discriminate Hb0.
  - intros c c' [<-|[<-|[]]] [<-|[<-|[]]]; reflexivity.
  - intros c [<-|[<-|[]]]; vm_compute; discriminate.
  - intros c c' _ _ _ _. vm_compute. reflexivity.
  - vm_compute. discriminate.
Defined.

Lemma Pick_serves_witness :
  exists c s',
    Pick oneBound noon "codex" "gpt-5" opts [Some a; Some b] = ((Some c, None), s').
Proof.
  apply (Pick_serves_when_candidates_have_ids unit gjson roundRobin
           Eligibility.getAvailableAuths oneBound noon "codex" "gpt-5" opts
           [Some a; Some b] [Some a; Some b]).
  - vm_compute. reflexivity.
  - vm_compute. discriminate.
  - discriminate.
  - intros c [<-|[<-|[]]]; eexists; (split; [reflexivity | discriminate]).
  - intros c [<-|[<-|[]]]; vm_compute; discriminate.
  - vm_compute. discriminate.
Defined.

(** Three calls, each fifty minutes after the one before: the second and
    the third come more than an hour after the first. *)
Definition laterCalls : list (Z * list (option Sticky.Auth)) :=
  [(noon + 50 * Time.Minute, [Some b; Some a]);
   (noon + 100 * Time.Minute, [Some a; Some b]);
   (noon + 150 * Time.Minute, [Some a; Some b])].

Lemma sticky_session_witness :
  let first := Pick (selector noon ∅) noon "codex" "gpt-5" opts [Some a; Some b] in
  let later := picks (snd first) "codex" "gpt-5" opts laterCalls in
  Forall2 (fun call res => exists c,
             res = (Some c, None) /\ Sticky.ID c = Sticky.ID b
             /\ In (Some c) [Some a; Some b]
             /\ ((forall c1 c2, In (Some c1) [Some a; Some b] ->
                    In (Some c2) [Some a; Some b] ->
                    Sticky.ID c1 = Sticky.ID c2 -> c1 = c2) -> c = b))
    laterCalls (fst later).
Proof.
  intros first later.
  apply (sticky_session_is_stable unit gjson roundRobin Eligibility.getAvailableAuths
           (selector noon ∅) (snd first) noon "codex" "gpt-5" opts
           [Some a; Some b] [Some a; Some b] b None laterCalls).
  - vm_compute. discriminate.
  - vm_compute. reflexivity.
  - vm_compute. reflexivity.
  - vm_compute. repeat split; reflexivity.
  - repeat constructor.
    + exists [Some b; Some a]. split; [vm_compute; reflexivity|].
      intros c. simpl. tauto.
    + exists [Some a; Some b]. split; [vm_compute; reflexivity|]. tauto.
    + exists [Some a; Some b]. split; [vm_compute; reflexivity|]. tauto.
Defined.

(** The record [a] while its model cools down until [until], as in
    [TestStickySelector_FailoverUpdatesBinding]. *)
Definition coolingA (until : Z) : Sticky.Auth :=
  {| Sticky.ID := "a"; Sticky.Provider := "codex";
     Sticky.AuthStatus := Sticky.StatusActive; Sticky.Disabled := false;
     Sticky.Metadata := {[ "priority" := Sticky.AInt 50 ]};
     Sticky.Attributes := ∅;
     Sticky.Quota := {| Sticky.Exceeded := false; Sticky.NextRecoverAt := 0 |};
     Sticky.ModelStates :=
       {[ "gpt-5" := {| Sticky.Unavailable := true;
                        Sticky.NextRetryAfter := until;
                        Sticky.ModelQuota :=
                          {| Sticky.Exceeded := true;
                             Sticky.NextRecoverAt := until |} |} ]} |}.

(** The session is bound to [a]; [a] cools down for half an hour, the
    session moves to [b], and stays there when [a] is back. *)
Lemma failover_witness :
  let s := selector noon {[ key := binding "a" (noon + Time.Minute) ]} in
  let first := Pick s noon "codex" "gpt-5" opts
                 [Some (coolingA (noon + 30 * Time.Minute)); Some b] in
  let later := picks (snd first) "codex" "gpt-5" opts
                 [(noon + 40 * Time.Minute, [Some a; Some b]);
                  (noon + 90 * Time.Minute, [Some a; Some b])] in
  Sticky.ID b <> "a"
  /\ Forall2 (fun call res => exists c,
                res = (Some c, None) /\ Sticky.ID c = Sticky.ID b
                /\ Sticky.ID c <> "a")
       [(noon + 40 * Time.Minute, [Some a; Some b]);
        (noon + 90 * Time.Minute, [Some a; Some b])] (fst later).
Proof.
  intros s first later.
  destruct (failover_is_not_undone unit gjson roundRobin Eligibility.getAvailableAuths
              s (snd first) noon "codex" "gpt-5" opts
              [Some (coolingA (noon + 30 * Time.Minute)); Some b] [Some b]
              (binding "a" (noon + Time.Minute)) b None
              [(noon + 40 * Time.Minute, [Some a; Some b]);
               (noon + 90 * Time.Minute, [Some a; Some b])])
    as (H1 & H2 & _).
  - vm_compute. discriminate.
  - vm_compute. reflexivity.
  - vm_compute. reflexivity.
  - intros c [E|[]]. injection E as <-. discriminate.
  - vm_compute. reflexivity.
  - vm_compute. repeat split; reflexivity.
  - repeat constructor.
    + exists [Some a; Some b], b. split; [vm_compute; reflexivity|].
      split; [right; left; reflexivity | reflexivity].
    + exists [Some a; Some b], b. split; [vm_compute; reflexivity|].
      split; [right; left; reflexivity | reflexivity].
  - split; [exact H1 | exact H2].
Defined.


(** ** The Kiro callback: query strings *)

(** The bytes a query string carries as they are: letters, digits,
    hyphen, underscore, period and tilde. *)
Definition unreserved (c : ascii) : bool :=
  Strs.between 65 90 c || Strs.between 97 122 c || Strs.between 48 57 c
  || Ascii.eqb c "-" || Ascii.eqb c "_" || Ascii.eqb c "." || Ascii.eqb c "~".

Fixpoint allOf (f : ascii -> bool) (s : string) : bool :=
  match s with
  | EmptyString => true
  | String c rest => f c && allOf f rest
  end.

Lemma unreserved_plain (c : ascii) :
  unreserved c = true ->
  Strs.isSpace c = false
  /\ Ascii.eqb c "%" = false /\ Ascii.eqb c "+" = false /\ Ascii.eqb c "&" = false
  /\ Ascii.eqb c ";" = false /\ Ascii.eqb c "=" = false.
Proof.
  destruct c as [[|] [|] [|] [|] [|] [|] [|] [|]]; intros H;
    vm_compute in H; try discriminate H; vm_compute; repeat split.
Qed.

Lemma QueryUnescape_plain (s : string) :
  allOf unreserved s = true -> Url.QueryUnescape s = Some s.
Proof.
  induction s as [|c s IH]; simpl; [reflexivity|].
  intros H. apply andb_true_iff in H. destruct H as [Hc Hs].
  destruct (unreserved_plain c Hc) as (_ & H1 & H2 & _).
  rewrite H1, H2, (IH Hs). reflexivity.
Qed.

Lemma Contains_plain (s : string) (d : ascii) :
  unreserved d = false -> allOf unreserved s = true -> Url.Contains s d = false.
Proof.
  intros Hd. induction s as [|c s IH]; simpl; [reflexivity|].
  intros H. apply andb_true_iff in H. destruct H as [Hc Hs].
  rewrite (IH Hs), orb_false_r. destruct (Ascii.eqb c d) eqn:E; [|reflexivity].
  apply Ascii.eqb_eq in E. congruence.
Qed.

Lemma Split_plain (s : string) :
  allOf unreserved s = true -> Url.Split "&" s = [s].
Proof.
  induction s as [|c s IH]; simpl; [reflexivity|].
  intros H. apply andb_true_iff in H. destruct H as [Hc Hs].
  destruct (unreserved_plain c Hc) as (_ & _ & _ & H3 & _).
  rewrite H3, (IH Hs). reflexivity.
Qed.

Lemma Split_plain_app (a b : string) :
  allOf unreserved a = true ->
  Url.Split "&" (a +:+ String "&" b) = a :: Url.Split "&" b.
Proof.
  induction a as [|c a IH]; simpl; [reflexivity|].
  intros H. apply andb_true_iff in H. destruct H as [Hc Hs].
  destruct (unreserved_plain c Hc) as (_ & _ & _ & H3 & _).
  rewrite H3, (IH Hs). reflexivity.
Qed.

Lemma TrimRight_plain (s : string) :
  allOf (fun c => negb (Strs.isSpace c)) s = true -> Strs.TrimRight s = s.
Proof.
  induction s as [|c s IH]; simpl; [reflexivity|].
  intros H. apply andb_true_iff in H. destruct H as [Hc Hs].
  rewrite (IH Hs). apply negb_true_iff in Hc. rewrite Hc.
  destruct s; reflexivity.
Qed.

Lemma allOf_app (f : ascii -> bool) (a b : string) :
  allOf f (a +:+ b) = allOf f a && allOf f b.
Proof.
  induction a as [|c a IH]; simpl; [reflexivity|].
  rewrite IH, andb_assoc. reflexivity.
Qed.

Lemma allOf_weaken (f g : ascii -> bool) (s : string) :
  (forall c, f c = true -> g c = true) -> allOf f s = true -> allOf g s = true.
Proof.
  intros Hfg. induction s as [|c s IH]; simpl; [reflexivity|].
  intros H. apply andb_true_iff in H. destruct H as [Hc Hs].
  rewrite (Hfg c Hc), (IH Hs). reflexivity.
Qed.

Section KiroQuery.

Variable urlParse : string -> string + Url.URL.

(** The query string a browser shows after a successful login. *)
Definition callbackQuery (code state : string) : string :=
  "code=" +:+ code +:+ "&state=" +:+ state.

Lemma callbackQuery_trimmed (code state : string) :
  allOf unreserved code = true -> allOf unreserved state = true ->
  Strs.TrimSpace (callbackQuery code state) = callbackQuery code state.
Proof.
  intros Hc Hs. unfold Strs.TrimSpace, callbackQuery.
  change (Strs.TrimLeft ("code=" +:+ code +:+ "&state=" +:+ state))
    with ("code=" +:+ code +:+ "&state=" +:+ state).
  apply TrimRight_plain.
  assert (Hn : forall s, allOf unreserved s = true ->
                 allOf (fun c => negb (Strs.isSpace c)) s = true).
  { intros s. apply allOf_weaken. intros c H.
    destruct (unreserved_plain c H) as [H0 _]. rewrite H0. reflexivity. }
  rewrite !allOf_app, (Hn _ Hc), (Hn _ Hs). reflexivity.
Qed.

Lemma app_empty (s : string) : "" +:+ s = s.
Proof. reflexivity. Qed.

Lemma callbackQuery_values (code state : string) :
  allOf unreserved code = true -> allOf unreserved state = true ->
  Url.ParseQuery (callbackQuery code state)
  = (<["state" := [state]]> (<["code" := [code]]> ∅), None).
Proof.
  intros Hc Hs. unfold Url.ParseQuery, callbackQuery.
  assert (Hsplit : Url.Split "&" ("code=" +:+ code +:+ "&state=" +:+ state)
                   = ["code=" +:+ code; "state=" +:+ state]).
  { change ("&state=" +:+ state) with (String "&" ("state=" +:+ state)).
    simpl. rewrite !app_empty. rewrite (Split_plain_app _ _ Hc).
    simpl. rewrite !app_empty. rewrite (Split_plain _ Hs). reflexivity. }
  rewrite Hsplit. simpl fold_left. unfold Url.parseSegment.
  assert (Hsemi : forall s, allOf unreserved s = true -> Url.Contains s ";" = false)
    by (intros s; apply Contains_plain; reflexivity).
  simpl. rewrite !app_empty. rewrite (Hsemi _ Hc), (Hsemi _ Hs). simpl.
  rewrite (QueryUnescape_plain _ Hc), (QueryUnescape_plain _ Hs).
  rewrite lookup_empty. simpl.
  rewrite lookup_insert_ne by discriminate. rewrite lookup_empty. reflexivity.
Qed.

(** A query string made of a code and a state, both of unreserved
    bytes and not empty, is read back as that code and that state, with
    no error parameter and no redirect URI; validation accepts it for
    the expected state it carries and rejects it with "state mismatch"
    for any other expected state that is not empty. *)
Theorem query_callback_round_trip (expectedState code state : string) :
  code <> EmptyString -> state <> EmptyString ->
  allOf unreserved code = true -> allOf unreserved state = true ->
  Kiro.parseOAuthCallbackInput urlParse (callbackQuery code state)
  = inr {| Kiro.code := code; Kiro.state := state;
           Kiro.errParam := EmptyString; Kiro.redirectURI := EmptyString |}
  /\ Kiro.parseAndValidateCallbackInput urlParse state (callbackQuery code state)
     = inr ({| Kiro.Code := code; Kiro.State := state; Kiro.Error := EmptyString |},
            EmptyString)
  /\ (expectedState <> EmptyString -> expectedState <> state ->
      Kiro.parseAndValidateCallbackInput urlParse expectedState (callbackQuery code state)
      = inl "state mismatch").
Proof.
  intros Hcne Hsne Hc Hs.
  assert (Hparse : Kiro.parseOAuthCallbackInput urlParse (callbackQuery code state)
                   = inr {| Kiro.code := code; Kiro.state := state;
                            Kiro.errParam := EmptyString;
                            Kiro.redirectURI := EmptyString |}).
  { unfold Kiro.parseOAuthCallbackInput. cbv zeta.
    rewrite (callbackQuery_trimmed _ _ Hc Hs).
    change (String.eqb (callbackQuery code state) "") with false.
    change (Strs.HasPrefix (callbackQuery code state) "http://") with false.
    change (Strs.HasPrefix (callbackQuery code state) "https://") with false.
    change (Strs.HasPrefix (callbackQuery code state) "kiro://") with false.
    cbv iota. simpl orb. cbv iota.
    rewrite (callbackQuery_values _ _ Hc Hs).
    unfold Kiro.fromValues, Url.Get.
    rewrite (lookup_insert_ne _ "state" "code") by discriminate.
    rewrite (lookup_insert_ne _ "state" "error") by discriminate.
    rewrite (lookup_insert_ne _ "code" "error") by discriminate.
    rewrite !lookup_insert_eq, lookup_empty. cbv zeta.
    change (negb (String.eqb "" "")) with false. cbv iota.
    rewrite (eqb_empty_false _ Hcne), (eqb_empty_false _ Hsne). reflexivity. }
  split; [exact Hparse|]. unfold Kiro.parseAndValidateCallbackInput. rewrite Hparse.
  simpl Kiro.state. simpl Kiro.code. simpl Kiro.errParam. simpl Kiro.redirectURI.
  split.
  - rewrite String.eqb_refl. simpl negb. rewrite andb_false_r. reflexivity.
  - intros He Hd. rewrite (eqb_empty_false _ He), (eqb_empty_false _ Hsne).
    assert (Hn : String.eqb state expectedState = false)
      by (apply String.eqb_neq; congruence).
    rewrite Hn. reflexivity.
Qed.



End KiroQuery.

(** The callback [code=abc&state=st1], expected with state [st1]. *)
Lemma query_callback_witness :
  Kiro.parseAndValidateCallbackInput KiroScenario.notURL "st1" (callbackQuery "abc" "st1")
  = inr ({| Kiro.Code := "abc"; Kiro.State := "st1"; Kiro.Error := EmptyString |},
         EmptyString).
Proof.
  apply (query_callback_round_trip KiroScenario.notURL "other" "abc" "st1");
    [discriminate | discriminate | reflexivity | reflexivity].
Defined.

(** ** The Codex quota registry *)

(** The registry forgets a deleted id and never holds the empty id;
    storing nil, or storing or deleting under the empty id, changes
    nothing; storing or deleting under one id leaves what is read under
    any other id as it was; and of two snapshots stored under an id the
    later one stays. *)
Theorem quota_registry_laws (store : CodexQuota.Store) (authID other : string)
    (snapshot later : CodexQuota.CodexQuotaSnapshot) :
  CodexQuota.GetCodexQuotaSnapshot
    (CodexQuota.DeleteCodexQuotaSnapshot store authID) authID = None
  /\ CodexQuota.GetCodexQuotaSnapshot
       (CodexQuota.UpdateCodexQuotaSnapshot store EmptyString (Some snapshot))
       EmptyString = None
  /\ CodexQuota.UpdateCodexQuotaSnapshot store EmptyString (Some snapshot) = store
  /\ CodexQuota.UpdateCodexQuotaSnapshot store authID None = store
  /\ CodexQuota.DeleteCodexQuotaSnapshot store EmptyString = store
  /\ (authID <> other ->
      CodexQuota.GetCodexQuotaSnapshot
        (CodexQuota.UpdateCodexQuotaSnapshot store authID (Some snapshot)) other
      = CodexQuota.GetCodexQuotaSnapshot store other
      /\ CodexQuota.GetCodexQuotaSnapshot
           (CodexQuota.DeleteCodexQuotaSnapshot store authID) other
         = CodexQuota.GetCodexQuotaSnapshot store other)
  /\ CodexQuota.UpdateCodexQuotaSnapshot
       (CodexQuota.UpdateCodexQuotaSnapshot store authID (Some snapshot))
       authID (Some later)
     = CodexQuota.UpdateCodexQuotaSnapshot store authID (Some later).
Proof.
  unfold CodexQuota.GetCodexQuotaSnapshot, CodexQuota.DeleteCodexQuotaSnapshot,
    CodexQuota.UpdateCodexQuotaSnapshot.
  split; [|split; [reflexivity|split; [reflexivity|split; [reflexivity|
    split; [reflexivity|split]]]]].
  - destruct (String.eqb authID ""); [reflexivity | apply lookup_delete_eq].
  - intros Hne. destruct (String.eqb other ""); [split; reflexivity|].
    destruct (String.eqb authID ""); [split; reflexivity|].
    split; [apply lookup_insert_ne | apply lookup_delete_ne]; exact Hne.
  - destruct (String.eqb authID ""); [reflexivity | apply insert_insert_eq].
Qed.

Section CodexQuotaParsing.

Variable ParseFloatRest : string -> option spec_float.

Local Abbreviation ParseCodexQuotaSnapshot :=
  (CodexQuota.ParseCodexQuotaSnapshot ParseFloatRest).


End CodexQuotaParsing.

(** ** The shape of session keys *)








(** ** Bearer tokens *)










